(** * The [logger] package of jbjoret/commons: level gate and logging facade

    A shallow embedding of [logger/logger.go].  The package keeps two
    package-level variables, [atomicLevel] and [log]; the facade functions
    read and write them and print JSON lines on standard output.  The
    functions of [go.uber.org/zap] (as of its version 1.27) and of the Go
    standard library that the package calls are embedded next to it, each
    under the name of its Go package. *)

From Stdlib Require Import ZArith List String Ascii Bool Lia.
From Stdlib Require Import DecimalString.
Import ListNotations.
Open Scope string_scope.
Open Scope Z_scope.

(** A Go [string] is a sequence of bytes; [String.string] is a list of
    [ascii], one per byte. *)

Infix "=s" := String.eqb (at level 70, no associativity).

Definition byte_of (c : ascii) : Z := Z.of_N (N_of_ascii c).

(** Two functions of the Go standard library walk the Unicode tables:
    [Map(unicode.ToLower, s)], which [strings.ToLower] and [bytes.ToLower]
    fall back to for a string with a byte at or above [utf8.RuneSelf], and
    [strconv.Quote], behind the [%q] verb of [fmt].  The tables are not
    part of this development: both functions are parameters, and every
    result below holds whatever they are. *)
Record Unicode := {
  mapToLower : string -> string;
  Quote : string -> string
}.

(* ------------------------------------------------------------------ *)
(** ** Package [strings] *)

Module strings.

(** [utf8.RuneSelf]: bytes below it are single-byte runes. *)
Definition RuneSelf : Z := 128.

(** First loop of [strings.ToLower]: is every byte below [RuneSelf]? *)
Fixpoint isASCII (s : string) : bool :=
  match s with
  | EmptyString => true
  | String c s' => if RuneSelf <=? byte_of c then false else isASCII s'
  end.

(** ['A' <= c && c <= 'Z'] *)
Definition isUpper (c : ascii) : bool :=
  (65 <=? byte_of c) && (byte_of c <=? 90).

Fixpoint hasUpper (s : string) : bool :=
  match s with
  | EmptyString => false
  | String c s' => isUpper c || hasUpper s'
  end.

(** [c += 'a' - 'A'] on a byte *)
Definition lowerByte (c : ascii) : ascii :=
  if isUpper c then ascii_of_N (Z.to_N ((byte_of c + (97 - 65)) mod 256)) else c.

Fixpoint lowerASCII (s : string) : string :=
  match s with
  | EmptyString => EmptyString
  | String c s' => String (lowerByte c) (lowerASCII s')
  end.

Section ToLower.
Variable U : Unicode.

(** [func ToLower(s string) string]: the ASCII fast path, and
    [Map(unicode.ToLower, s)] for every other string. *)
Definition ToLower (s : string) : string :=
  if isASCII s then
    if negb (hasUpper s) then s else lowerASCII s
  else mapToLower U s.
End ToLower.

End strings.

(* ------------------------------------------------------------------ *)
(** ** Package [os] *)

Module os.

(** The process environment: a variable is unset or holds a string. *)
Definition Environ := string -> option string.

(** [os.Getenv]: the value, or the empty string when the variable is
    not present. *)
Definition Getenv (env : Environ) (key : string) : string :=
  match env key with
  | Some v => v
  | None => EmptyString
  end.

Definition Unsetenv (env : Environ) (key : string) : Environ :=
  fun k => if String.eqb k key then None else env k.

Definition Setenv (env : Environ) (key value : string) : Environ :=
  fun k => if String.eqb k key then Some value else env k.

Definition empty : Environ := fun _ => None.

End os.

(** Go's [error] interface, by the text of [Error()]; [None] is [nil]. *)
Definition error := option string.

(* ------------------------------------------------------------------ *)
(** ** Package [go.uber.org/zap/zapcore] *)

Module zapcore.

(** [type Level int8] *)
Definition Level := Z.

Definition DebugLevel : Level := -1.
Definition InfoLevel : Level := 0.
Definition WarnLevel : Level := 1.
Definition ErrorLevel : Level := 2.
Definition DPanicLevel : Level := 3.
Definition PanicLevel : Level := 4.
Definition FatalLevel : Level := 5.

Definition _minLevel : Level := DebugLevel.
Definition _maxLevel : Level := FatalLevel.

(** [func (l Level) String() string] *)
Definition Level_String (l : Level) : string :=
  if l =? DebugLevel then "debug"
  else if l =? InfoLevel then "info"
  else if l =? WarnLevel then "warn"
  else if l =? ErrorLevel then "error"
  else if l =? DPanicLevel then "dpanic"
  else if l =? PanicLevel then "panic"
  else if l =? FatalLevel then "fatal"
  else "Level(" ++ NilZero.string_of_int (Z.to_int l) ++ ")".

(** [func (l Level) Enabled(lvl Level) bool] *)
Definition Level_Enabled (l lvl : Level) : bool := l <=? lvl.

(** [func (l *Level) unmarshalText(text []byte) bool]: the level
    written through the pointer, or [None] for [false]. *)
Definition unmarshalText (text : string) : option Level :=
  if (text =s "debug") || (text =s "DEBUG") then Some DebugLevel
  else if (text =s "info") || (text =s "INFO") || (text =s EmptyString) then Some InfoLevel
  else if (text =s "warn") || (text =s "WARN") then Some WarnLevel
  else if (text =s "error") || (text =s "ERROR") then Some ErrorLevel
  else if (text =s "dpanic") || (text =s "DPANIC") then Some DPanicLevel
  else if (text =s "panic") || (text =s "PANIC") then Some PanicLevel
  else if (text =s "fatal") || (text =s "FATAL") then Some FatalLevel
  else None.

Section Unmarshal.
Variable U : Unicode.

(** [func (l *Level) UnmarshalText(text []byte) error]; [l] is the
    value behind the pointer before the call, the result is the value
    behind it afterwards and the error,
    [fmt.Errorf("unrecognized level: %q", text)]. *)
Definition Level_UnmarshalText (l : Level) (text : string) : Level * error :=
  match unmarshalText text with
  | Some l' => (l', None)
  | None =>
      match unmarshalText (strings.ToLower U text) with
      | Some l' => (l', None)
      | None => (l, Some ("unrecognized level: " ++ Quote U text))
      end
  end.

(** [func (l *Level) Set(s string) error] *)
Definition Level_Set (l : Level) (s : string) : Level * error :=
  Level_UnmarshalText l s.
End Unmarshal.

(** *** Fields, entries and the JSON encoder *)

(** A [time.Time] read from the clock, in nanoseconds since the epoch;
    a clock reading is never Go's zero [Time]. *)
Definition time_Time := Z.

(** A [Field], by its [FieldType]: the fields this package builds
    ([StringType], [ErrorType], and [SkipType] for a nil error) and
    [Int64Type], which the callers of the facade use. *)
Inductive Field :=
| StringField (key val : string)
| Int64Field (key : string) (val : Z)
| ErrorField (key : string) (err : string)
| SkipField.

Inductive LevelEncoder := LowercaseLevelEncoder | CapitalLevelEncoder.
Inductive TimeEncoder := EpochTimeEncoder | ISO8601TimeEncoder.
Inductive DurationEncoder := SecondsDurationEncoder.
Inductive CallerEncoder := ShortCallerEncoder.

Definition OmitKey : string := EmptyString.
Definition DefaultLineEnding : string := String (ascii_of_nat 10) EmptyString.

Record EncoderConfig := {
  MessageKey : string;
  LevelKey : string;
  TimeKey : string;
  NameKey : string;
  CallerKey : string;
  FunctionKey : string;
  StacktraceKey : string;
  LineEnding : string;
  SkipLineEnding : bool;
  EncodeLevel : LevelEncoder;
  EncodeTime : TimeEncoder;
  EncodeDuration : DurationEncoder;
  EncodeCaller : CallerEncoder
}.

(** [EntryCaller]; [TrimmedPath] is the [dir/file.go:line] text that
    [ShortCallerEncoder] prints. *)
Record EntryCaller := {
  Defined : bool;
  TrimmedPath : string;
  Function : string
}.

Definition noCaller : EntryCaller :=
  {| Defined := false; TrimmedPath := EmptyString; Function := EmptyString |}.

Record Entry := {
  Level_ : Level;
  Time : time_Time;
  LoggerName : string;
  Message : string;
  Caller : EntryCaller;
  Stack : string
}.

(** A JSON value as the encoder appends it.  A time stays a pair of the
    encoder and the instant: its digits are the business of
    [time.Format]. *)
Inductive JValue :=
| JString (s : string)
| JNumber (z : Z)
| JTime (enc : TimeEncoder) (t : time_Time).

(** One JSON object, key by key in the order the encoder wrote them,
    and the line ending after the closing brace. *)
Record JSONLine := {
  members : list (string * JValue);
  ending : string
}.

(** [func (l Level) CapitalString() string] *)
Definition Level_CapitalString (l : Level) : string :=
  if l =? DebugLevel then "DEBUG"
  else if l =? InfoLevel then "INFO"
  else if l =? WarnLevel then "WARN"
  else if l =? ErrorLevel then "ERROR"
  else if l =? DPanicLevel then "DPANIC"
  else if l =? PanicLevel then "PANIC"
  else if l =? FatalLevel then "FATAL"
  else "LEVEL(" ++ NilZero.string_of_int (Z.to_int l) ++ ")".

Definition encodeLevel (e : LevelEncoder) (l : Level) : JValue :=
  match e with
  | LowercaseLevelEncoder => JString (Level_String l)
  | CapitalLevelEncoder => JString (Level_CapitalString l)
  end.

(** [func (f Field) AddTo(enc ObjectEncoder)] *)
Definition Field_AddTo (f : Field) : list (string * JValue) :=
  match f with
  | StringField k v => [(k, JString v)]
  | Int64Field k v => [(k, JNumber v)]
  | ErrorField k e => [(k, JString e)]
  | SkipField => []
  end.

(** [func addFields(enc ObjectEncoder, fields []Field)] *)
Definition addFields (fields : list Field) : list (string * JValue) :=
  flat_map Field_AddTo fields.

Definition nonEmpty (s : string) : bool := negb (s =s EmptyString).

(** [NewJSONEncoder] keeps the configuration and settles the line
    ending. *)
Inductive Encoder := jsonEncoder (cfg : EncoderConfig).

Definition NewJSONEncoder (cfg : EncoderConfig) : Encoder :=
  jsonEncoder
    {| MessageKey := MessageKey cfg; LevelKey := LevelKey cfg;
       TimeKey := TimeKey cfg; NameKey := NameKey cfg;
       CallerKey := CallerKey cfg; FunctionKey := FunctionKey cfg;
       StacktraceKey := StacktraceKey cfg;
       LineEnding :=
         if SkipLineEnding cfg then EmptyString
         else if LineEnding cfg =s EmptyString then DefaultLineEnding
         else LineEnding cfg;
       SkipLineEnding := SkipLineEnding cfg;
       EncodeLevel := EncodeLevel cfg; EncodeTime := EncodeTime cfg;
       EncodeDuration := EncodeDuration cfg; EncodeCaller := EncodeCaller cfg |}.

Definition config (e : Encoder) : EncoderConfig :=
  match e with jsonEncoder cfg => cfg end.

(** [func (enc *jsonEncoder) EncodeEntry(ent Entry, fields []Field)]
    for an encoder without context fields. *)
Definition EncodeEntry (cfg : EncoderConfig) (ent : Entry) (fields : list Field)
  : JSONLine :=
  {| members :=
       (if nonEmpty (LevelKey cfg)
        then [(LevelKey cfg, encodeLevel (EncodeLevel cfg) (Level_ ent))] else [])
       ++ (if nonEmpty (TimeKey cfg)
           then [(TimeKey cfg, JTime (EncodeTime cfg) (Time ent))] else [])
       ++ (if nonEmpty (LoggerName ent) && nonEmpty (NameKey cfg)
           then [(NameKey cfg, JString (LoggerName ent))] else [])
       ++ (if Defined (Caller ent)
           then (if nonEmpty (CallerKey cfg)
                 then [(CallerKey cfg, JString (TrimmedPath (Caller ent)))] else [])
                ++ (if nonEmpty (FunctionKey cfg)
                    then [(FunctionKey cfg, JString (Function (Caller ent)))] else [])
           else [])
       ++ (if nonEmpty (MessageKey cfg)
           then [(MessageKey cfg, JString (Message ent))] else [])
       ++ addFields fields
       ++ (if nonEmpty (Stack ent) && nonEmpty (StacktraceKey cfg)
           then [(StacktraceKey cfg, JString (Stack ent))] else []);
     ending := LineEnding cfg |}.

(** [CheckWriteHook]: what a checked entry does once it is written
    ([WriteThenGoexit], which no logger installs by itself, is left
    out). *)
Inductive CheckWriteAction :=
| WriteThenNoop
| WriteThenPanic
| WriteThenFatal.

End zapcore.

(* ------------------------------------------------------------------ *)
(** ** The process: results of a call *)

(** A Go call returns, or ends the process ([os.Exit]), or panics.  The
    state reached is kept in each case: what was written stays written. *)
Inductive Res (St A : Type) :=
| Ret (a : A) (s : St)
| Exit (code : Z) (s : St)
| Panic (msg : string) (s : St).
Arguments Ret {St A} a s.
Arguments Exit {St A} code s.
Arguments Panic {St A} msg s.

Definition M (St A : Type) := St -> Res St A.

Definition ret {St A} (a : A) : M St A := fun s => Ret a s.

Definition bind {St A B} (m : M St A) (f : A -> M St B) : M St B :=
  fun s =>
    match m s with
    | Ret a s' => f a s'
    | Exit c s' => Exit c s'
    | Panic e s' => Panic e s'
    end.

Definition gets {St A} (f : St -> A) : M St A := fun s => Ret (f s) s.
Definition modify {St} (f : St -> St) : M St unit := fun s => Ret tt (f s).

Notation "x <- m ;; k" := (bind m (fun x => k))
  (at level 61, m at next level, right associativity).
Notation "m ;;; k" := (bind m (fun _ => k))
  (at level 61, right associativity).

(** The state a result stops in. *)
Definition final {St A} (r : Res St A) : St :=
  match r with
  | Ret _ s => s
  | Exit _ s => s
  | Panic _ s => s
  end.

(* ------------------------------------------------------------------ *)
(** ** Package [go.uber.org/zap] *)

Module zap.
Import zapcore.

(** The two files a logger of this package can write to. *)
Inductive File := Stdout | Stderr.

(** [zapcore.Lock(f)]: a [WriteSyncer] that serialises writes to [f]. *)
Inductive WriteSyncer := Lock (f : File).

(** What reaches a file: an encoded entry, or the complaint of
    [Logger.check] about a missing caller frame, stamped with the time
    of the entry. *)
Inductive Output :=
| Line (l : JSONLine)
| FailedToGetCaller (t : time_Time).

(** The objects on the heap and outside the process that a logger
    touches: the value held by the [AtomicLevel] it was built with, and
    the two files. *)
Record Process := {
  level : Level;
  stdout : list Output;
  stderr : list Output
}.

(** [zapcore.NewCore(enc, ws, enab)]; [enab] is always the
    [AtomicLevel] of the process, the cell [level]. *)
Record ioCore := {
  enc : Encoder;
  out : WriteSyncer
}.

(** [zap.Logger], the fields that [New] and its options set. *)
Record Logger := {
  core : ioCore;
  development : bool;
  addCaller : bool;
  name : string;
  errorOutput : WriteSyncer;
  callerSkip : nat
}.

(** A frame of the call stack: its [dir/file.go:line] and the name of
    its function. *)
Record Frame := {
  frame_path : string;
  frame_func : string
}.

(** What the runtime hands to one call of a method of the logger: the
    clock reading and the frames of the callers of that method,
    innermost first. *)
Record Call := {
  now : time_Time;
  stack : list Frame
}.

Definition String (key val : string) : Field := StringField key val.
Definition Int (key : string) (val : Z) : Field := Int64Field key val.

(** [func Error(err error) Field]: [NamedError("error", err)], a
    skipped field for a nil error. *)
Definition Error (err : error) : Field :=
  match err with
  | None => SkipField
  | Some e => ErrorField "error" e
  end.

(** [func NewAtomicLevel() AtomicLevel]: a fresh cell at [InfoLevel]. *)
Definition NewAtomicLevel : Level := InfoLevel.

Definition AtomicLevel_SetLevel (l : Level) : M Process unit :=
  modify (fun p => {| level := l; stdout := stdout p; stderr := stderr p |}).

Definition AtomicLevel_Level : M Process Level := gets level.

Definition AtomicLevel_String : M Process string :=
  l <- AtomicLevel_Level ;; ret (Level_String l).

Definition AtomicLevel_Enabled (lvl : Level) : M Process bool :=
  l <- AtomicLevel_Level ;; ret (Level_Enabled l lvl).

(** [Write] on a locked file. *)
Definition WriteSyncer_Write (ws : WriteSyncer) (o : Output) : M Process unit :=
  match ws with
  | Lock Stdout =>
      modify (fun p => {| level := level p; stdout := stdout p ++ [o];
                          stderr := stderr p |})
  | Lock Stderr =>
      modify (fun p => {| level := level p; stdout := stdout p;
                          stderr := stderr p ++ [o] |})
  end.

(** [CheckedEntry]: the entry, the cores that will write it and the
    action after the write. *)
Record CheckedEntry := {
  ce_Entry : Entry;
  cores : list ioCore;
  after : CheckWriteAction
}.

(** [func (ce *CheckedEntry) AddCore(ent Entry, core Core)] on a nil or
    non-nil receiver. *)
Definition AddCore (ce : option CheckedEntry) (ent : Entry) (c : ioCore)
  : option CheckedEntry :=
  match ce with
  | None => Some {| ce_Entry := ent; cores := [c]; after := WriteThenNoop |}
  | Some e => Some {| ce_Entry := ce_Entry e; cores := cores e ++ [c];
                      after := after e |}
  end.

(** [func (ce *CheckedEntry) After(ent Entry, hook CheckWriteHook)] *)
Definition After (ce : option CheckedEntry) (ent : Entry) (hook : CheckWriteAction)
  : option CheckedEntry :=
  match ce with
  | None => Some {| ce_Entry := ent; cores := []; after := hook |}
  | Some e => Some {| ce_Entry := ce_Entry e; cores := cores e; after := hook |}
  end.

(** [func (c *ioCore) Check(ent Entry, ce *CheckedEntry)] *)
Definition ioCore_Check (c : ioCore) (ent : Entry) (ce : option CheckedEntry)
  : M Process (option CheckedEntry) :=
  en <- AtomicLevel_Enabled (Level_ ent) ;;
  if en then ret (AddCore ce ent c) else ret ce.

(** [func (c *ioCore) Write(ent Entry, fields []Field) error]; the
    [Sync] after an entry above [ErrorLevel] changes nothing here. *)
Definition ioCore_Write (c : ioCore) (ent : Entry) (fields : list Field)
  : M Process unit :=
  WriteSyncer_Write (out c) (Line (EncodeEntry (config (enc c)) ent fields)).

Fixpoint writeCores (cs : list ioCore) (ent : Entry) (fields : list Field)
  : M Process unit :=
  match cs with
  | [] => ret tt
  | c :: cs' => ioCore_Write c ent fields ;;; writeCores cs' ent fields
  end.

(** [OnWrite] of the actions: [WriteThenFatal] is
    [exit.With(1)], that is [os.Exit(1)]. *)
Definition OnWrite (a : CheckWriteAction) (ce : CheckedEntry) : M Process unit :=
  match a with
  | WriteThenNoop => ret tt
  | WriteThenPanic => fun p => Panic (Message (ce_Entry ce)) p
  | WriteThenFatal => fun p => Exit 1 p
  end.

(** [func (ce *CheckedEntry) Write(fields ...Field)] *)
Definition CheckedEntry_Write (ce : option CheckedEntry) (fields : list Field)
  : M Process unit :=
  match ce with
  | None => ret tt
  | Some e =>
      writeCores (cores e) (ce_Entry e) fields ;;;
      OnWrite (after e) e
  end.

Definition withCaller (e : CheckedEntry) (f : Frame) : CheckedEntry :=
  {| ce_Entry :=
       {| Level_ := Level_ (ce_Entry e); Time := Time (ce_Entry e);
          LoggerName := LoggerName (ce_Entry e);
          Message := Message (ce_Entry e);
          Caller := {| Defined := true; TrimmedPath := frame_path f;
                       Function := frame_func f |};
          Stack := Stack (ce_Entry e) |};
     cores := cores e;
     after := after e |}.

(** [func (log *Logger) check(lvl zapcore.Level, msg string)].  The
    loggers of this package are built without [AddStacktrace], so
    [addStack] enables no level and the stack of an entry stays empty;
    with [callerSkip] added to the two frames of zap itself, the caller
    is frame number [callerSkip] of the callers of the method. *)
Definition Logger_check (log : Logger) (lvl : Level) (msg : string) (c : Call)
  : M Process (option CheckedEntry) :=
  en <- AtomicLevel_Enabled lvl ;;
  if (lvl <? DPanicLevel) && negb en then ret None
  else
    let ent := {| Level_ := lvl; Time := now c; LoggerName := name log;
                  Message := msg; Caller := noCaller; Stack := EmptyString |} in
    ce <- ioCore_Check (core log) ent None ;;
    let willWrite := match ce with Some _ => true | None => false end in
    let ce :=
      if lvl =? PanicLevel then After ce ent WriteThenPanic
      else if lvl =? FatalLevel then After ce ent WriteThenFatal
      else if lvl =? DPanicLevel then
        (if development log then After ce ent WriteThenPanic else ce)
      else ce in
    if negb willWrite then ret ce
    else if negb (addCaller log) then ret ce
    else
      match nth_error (stack c) (callerSkip log), ce with
      | Some f, Some e => ret (Some (withCaller e f))
      | _, _ =>
          WriteSyncer_Write (errorOutput log) (FailedToGetCaller (now c)) ;;;
          ret ce
      end.

Definition logAt (lvl : Level) (log : Logger) (msg : string)
           (fields : list Field) (c : Call) : M Process unit :=
  ce <- Logger_check log lvl msg c ;;
  match ce with
  | Some _ => CheckedEntry_Write ce fields
  | None => ret tt
  end.

(** [func (log *Logger) Debug(msg string, fields ...Field)] and its
    siblings. *)
Definition Logger_Debug := logAt DebugLevel.
Definition Logger_Info := logAt InfoLevel.
Definition Logger_Warn := logAt WarnLevel.
Definition Logger_Error := logAt ErrorLevel.
Definition Logger_Fatal := logAt FatalLevel.

Inductive Option_ :=
| AddCaller
| AddCallerSkip (skip : nat).

Definition apply (log : Logger) (o : Option_) : Logger :=
  match o with
  | AddCaller =>
      {| core := core log; development := development log; addCaller := true;
         name := name log; errorOutput := errorOutput log;
         callerSkip := callerSkip log |}
  | AddCallerSkip n =>
      {| core := core log; development := development log;
         addCaller := addCaller log; name := name log;
         errorOutput := errorOutput log;
         callerSkip := (callerSkip log + n)%nat |}
  end.

(** [func New(core zapcore.Core, options ...Option) *Logger] *)
Definition New (c : ioCore) (options : list Option_) : Logger :=
  fold_left apply options
    {| core := c; development := false; addCaller := false;
       name := EmptyString; errorOutput := Lock Stderr; callerSkip := 0%nat |}.

(** [func NewProductionEncoderConfig() zapcore.EncoderConfig] *)
Definition NewProductionEncoderConfig : EncoderConfig :=
  {| TimeKey := "ts";
     LevelKey := "level";
     NameKey := "logger";
     CallerKey := "caller";
     FunctionKey := OmitKey;
     MessageKey := "msg";
     StacktraceKey := "stacktrace";
     LineEnding := DefaultLineEnding;
     SkipLineEnding := false;
     EncodeLevel := LowercaseLevelEncoder;
     EncodeTime := EpochTimeEncoder;
     EncodeDuration := SecondsDurationEncoder;
     EncodeCaller := ShortCallerEncoder |}.

End zap.

(* ------------------------------------------------------------------ *)
(** ** Package [logger] *)

Module logger.
Import zapcore.

(** The package variable [log], and the process it runs in.  The
    package variable [atomicLevel] points to the cell [zap.level] of the
    process, the same cell the core of [log] was built with. *)
Record World := {
  log : zap.Logger;
  process : zap.Process
}.

(** The value behind [atomicLevel]. *)
Definition atomicLevel (w : World) : Level := zap.level (process w).

(** A method of zap run from this package. *)
Definition lift {A} (m : M zap.Process A) : M World A :=
  fun w =>
    match m (process w) with
    | Ret a p => Ret a {| log := log w; process := p |}
    | Exit c p => Exit c {| log := log w; process := p |}
    | Panic e p => Panic e {| log := log w; process := p |}
    end.

(** [func init()], run in a process that has written nothing yet. *)
Definition init : World :=
  let atomicLevel := zap.NewAtomicLevel in
  let atomicLevel := InfoLevel in
  let encoderConfig := zap.NewProductionEncoderConfig in
  let encoderConfig :=
    {| TimeKey := "timestamp";
       EncodeTime := ISO8601TimeEncoder;
       LevelKey := LevelKey encoderConfig;
       NameKey := NameKey encoderConfig;
       CallerKey := CallerKey encoderConfig;
       FunctionKey := FunctionKey encoderConfig;
       MessageKey := MessageKey encoderConfig;
       StacktraceKey := StacktraceKey encoderConfig;
       LineEnding := LineEnding encoderConfig;
       SkipLineEnding := SkipLineEnding encoderConfig;
       EncodeLevel := EncodeLevel encoderConfig;
       EncodeDuration := EncodeDuration encoderConfig;
       EncodeCaller := EncodeCaller encoderConfig |} in
  let core :=
    {| zap.enc := NewJSONEncoder encoderConfig;
       zap.out := zap.Lock zap.Stdout |} in
  {| log := zap.New core [zap.AddCaller; zap.AddCallerSkip 1];
     process := {| zap.level := atomicLevel; zap.stdout := []; zap.stderr := [] |} |}.

(** The frame of a function of this package at a line of
    [logger/logger.go], as a callee sees it. *)
Definition pkgPath : string := "bitbucket.org/jbjoret/commons/logger".

Definition here (func line : string) (c : zap.Call) : zap.Call :=
  {| zap.now := zap.now c;
     zap.stack :=
       {| zap.frame_path := "logger/logger.go:" ++ line;
          zap.frame_func := pkgPath ++ "." ++ func |} :: zap.stack c |}.

(** [func Debug(msg string, fields ...zap.Field)]; [c] is the clock
    reading of the call and the frames of its callers. *)
Definition Debug (msg : string) (fields : list Field) (c : zap.Call) : M World unit :=
  l <- gets log ;; lift (zap.Logger_Debug l msg fields (here "Debug" "72" c)).

Definition Info (msg : string) (fields : list Field) (c : zap.Call) : M World unit :=
  l <- gets log ;; lift (zap.Logger_Info l msg fields (here "Info" "77" c)).

Definition Warn (msg : string) (fields : list Field) (c : zap.Call) : M World unit :=
  l <- gets log ;; lift (zap.Logger_Warn l msg fields (here "Warn" "82" c)).

Definition Error (msg : string) (fields : list Field) (c : zap.Call) : M World unit :=
  l <- gets log ;; lift (zap.Logger_Error l msg fields (here "Error" "87" c)).

Definition Fatal (msg : string) (fields : list Field) (c : zap.Call) : M World unit :=
  l <- gets log ;; lift (zap.Logger_Fatal l msg fields (here "Fatal" "92" c)).

(** [func GetLogLevel() string] *)
Definition GetLogLevel : M World string := lift zap.AtomicLevel_String.

Section WithUnicode.
Variable U : Unicode.

(** The [switch] of [SetLogLevel]: the level chosen, or the error
    returned from the [default] case.  [newLevel] starts as the zero
    value of [zapcore.Level]. *)
Definition parseLevel (level : string) : Level + string :=
  let newLevel : Level := 0 in
  let lower := strings.ToLower U level in
  if lower =s "debug" then inl DebugLevel
  else if lower =s "info" then inl InfoLevel
  else if (lower =s "warn") || (lower =s "warning") then inl WarnLevel
  else if lower =s "error" then inl ErrorLevel
  else if lower =s "dpanic" then inl DPanicLevel
  else if lower =s "panic" then inl PanicLevel
  else if lower =s "fatal" then inl FatalLevel
  else
    match Level_Set U newLevel level with
    | (_, Some _) => inr ("invalid log level string: " ++ level)
    | (newLevel, None) => inl newLevel
    end.

(** [func SetLogLevel(level string) error] *)
Definition SetLogLevel (level : string) : M World error :=
  match parseLevel level with
  | inr e => ret (Some e)
  | inl newLevel =>
      lift (zap.AtomicLevel_SetLevel newLevel) ;;;
      ret None
  end.

(** [func Init()]; [env] is the environment of the process, [c] the
    clock reading of the one message the call logs and the frames of
    the callers of [Init]. *)
Definition Init (env : os.Environ) (c : zap.Call) : M World unit :=
  let levelStr := os.Getenv env "LOG_LEVEL" in
  if negb (levelStr =s EmptyString) then
    err <- SetLogLevel levelStr ;;
    match err with
    | Some _ =>
        Warn "Invalid LOG_LEVEL provided, using default."
             [zap.String "value" levelStr; zap.Error err] (here "Init" "61" c)
    | None =>
        Info "Log level set from environment."
             [zap.String "level" levelStr] (here "Init" "63" c)
    end
  else
    Info "Log level is not set, using default 'info'." [] (here "Init" "66" c).

(** One call into the package from outside. *)
Inductive Op :=
| CallInit (env : os.Environ) (c : zap.Call)
| CallSetLogLevel (level : string)
| CallGetLogLevel
| CallDebug (msg : string) (fields : list Field) (c : zap.Call)
| CallInfo (msg : string) (fields : list Field) (c : zap.Call)
| CallWarn (msg : string) (fields : list Field) (c : zap.Call)
| CallError (msg : string) (fields : list Field) (c : zap.Call)
| CallFatal (msg : string) (fields : list Field) (c : zap.Call).

Definition call (o : Op) : M World unit :=
  match o with
  | CallInit env c => Init env c
  | CallSetLogLevel level => SetLogLevel level ;;; ret tt
  | CallGetLogLevel => GetLogLevel ;;; ret tt
  | CallDebug msg fields c => Debug msg fields c
  | CallInfo msg fields c => Info msg fields c
  | CallWarn msg fields c => Warn msg fields c
  | CallError msg fields c => Error msg fields c
  | CallFatal msg fields c => Fatal msg fields c
  end.

(** A program: calls one after the other, as long as the process
    lives. *)
Fixpoint run (ops : list Op) : M World unit :=
  match ops with
  | [] => ret tt
  | o :: ops' => call o ;;; run ops'
  end.
End WithUnicode.

End logger.

(* ------------------------------------------------------------------ *)
(** ** Vocabulary of the specification *)

Import zapcore.

(** The severities of the data model, in increasing order. *)
Inductive Severity := SDebug | SInfo | SWarn | SError | SDPanic | SPanic | SFatal.

Definition levelOf (s : Severity) : Level :=
  match s with
  | SDebug => DebugLevel
  | SInfo => InfoLevel
  | SWarn => WarnLevel
  | SError => ErrorLevel
  | SDPanic => DPanicLevel
  | SPanic => PanicLevel
  | SFatal => FatalLevel
  end.

(** The canonical lowercase name of a severity. *)
Definition nameOf (s : Severity) : string :=
  match s with
  | SDebug => "debug"
  | SInfo => "info"
  | SWarn => "warn"
  | SError => "error"
  | SDPanic => "dpanic"
  | SPanic => "panic"
  | SFatal => "fatal"
  end.

(** The recognized aliases and the severity each one names. *)
Definition aliases : list (string * Severity) :=
  [("debug", SDebug); ("info", SInfo); ("warn", SWarn); ("warning", SWarn);
   ("error", SError); ("dpanic", SDPanic); ("panic", SPanic); ("fatal", SFatal)].

Fixpoint assoc {A} (k : string) (l : list (string * A)) : option A :=
  match l with
  | [] => None
  | (k', a) :: l' => if k =s k' then Some a else assoc k l'
  end.

(** [casing a s]: [s] is the alias [a] in some letter-casing, each byte
    the lowercase letter of [a] or its capital. *)
Definition capital (c : ascii) : ascii :=
  ascii_of_N (Z.to_N (byte_of c - 32)).

Fixpoint casing (a s : string) : bool :=
  match a, s with
  | EmptyString, EmptyString => true
  | String x a', String y s' =>
      (Ascii.eqb y x || Ascii.eqb y (capital x)) && casing a' s'
  | _, _ => false
  end.

(** The world of a process [p] under the logger that [init] built. *)
Definition started (p : zap.Process) : logger.World :=
  {| logger.log := logger.log logger.init; logger.process := p |}.

(** The same state with another threshold. *)
Definition atLevel (l : Level) (p : zap.Process) : zap.Process :=
  {| zap.level := l; zap.stdout := zap.stdout p; zap.stderr := zap.stderr p |}.

Definition withLevel (l : Level) (w : logger.World) : logger.World :=
  {| logger.log := logger.log w; logger.process := atLevel l (logger.process w) |}.

(** The result [r] of a call made in world [w] is a normal return after
    exactly one more JSON line on standard output, with the level name
    [lvl] and the message [msg]; the logger and the threshold are as
    before. *)
Definition wroteOneLine (r : Res logger.World unit) (w : logger.World)
           (lvl msg : string) : Prop :=
  exists (l : JSONLine) (w' : logger.World),
    r = Ret tt w' /\
    logger.log w' = logger.log w /\
    logger.atomicLevel w' = logger.atomicLevel w /\
    zap.stdout (logger.process w') = (zap.stdout (logger.process w) ++ [zap.Line l])%list /\
    In ("level", JString lvl) (members l) /\
    In ("msg", JString msg) (members l).

(** The four gated functions of the facade, each with its severity. *)
Inductive Emitter := EmDebug | EmInfo | EmWarn | EmError.

Definition emit (e : Emitter)
  : string -> list Field -> zap.Call -> M logger.World unit :=
  match e with
  | EmDebug => logger.Debug
  | EmInfo => logger.Info
  | EmWarn => logger.Warn
  | EmError => logger.Error
  end.

Definition severity (e : Emitter) : Severity :=
  match e with
  | EmDebug => SDebug
  | EmInfo => SInfo
  | EmWarn => SWarn
  | EmError => SError
  end.

(** What a gated call leaves behind when its level passes: the encoded
    entry on standard output and, for a call without a caller frame, the
    complaint of zap on standard error. *)
Definition callerOf (c : zap.Call) : EntryCaller :=
  match zap.stack c with
  | f :: _ => {| Defined := true; TrimmedPath := zap.frame_path f;
                 Function := zap.frame_func f |}
  | [] => noCaller
  end.

Definition entryOf (lvl : Level) (msg : string) (c : zap.Call) : Entry :=
  {| Level_ := lvl; Time := zap.now c; LoggerName := EmptyString;
     Message := msg; Caller := callerOf c; Stack := EmptyString |}.

Definition lineOf (lvl : Level) (msg : string) (fields : list Field) (c : zap.Call)
  : JSONLine :=
  EncodeEntry (config (zap.enc (zap.core (logger.log logger.init))))
              (entryOf lvl msg c) fields.

Definition written (lvl : Level) (msg : string) (fields : list Field)
           (c : zap.Call) (p : zap.Process) : zap.Process :=
  {| zap.level := zap.level p;
     zap.stdout := (zap.stdout p ++ [zap.Line (lineOf lvl msg fields c)])%list;
     zap.stderr :=
       match zap.stack c with
       | [] => (zap.stderr p ++ [zap.FailedToGetCaller (zap.now c)])%list
       | _ :: _ => zap.stderr p
       end |}.

(* ------------------------------------------------------------------ *)
(** ** The gate *)

Lemma started_eta (w : logger.World) :
  logger.log w = logger.log logger.init -> w = started (logger.process w).
Proof. destruct w as [l p]; simpl; intros ->; reflexivity. Qed.

(** A call below [DPanicLevel] on the logger of [init]: one line when the
    threshold lets the level through, nothing at all otherwise. *)
Lemma logAt_gated (lvl : Level) (msg : string) (fields : list Field)
      (func line : string) (c : zap.Call) (p : zap.Process) :
  lvl < DPanicLevel ->
  logger.lift (zap.logAt lvl (logger.log logger.init) msg fields
                         (logger.here func line c)) (started p)
  = if zap.level p <=? lvl
    then Ret tt (started (written lvl msg fields c p))
    else Ret tt (started p).
Proof.
  intros Hlt.
  assert (H1 : (lvl <? DPanicLevel) = true) by (apply Z.ltb_lt; exact Hlt).
  assert (H2 : (lvl =? PanicLevel) = false)
    by (apply Z.eqb_neq; unfold PanicLevel, DPanicLevel in *; lia).
  assert (H3 : (lvl =? FatalLevel) = false)
    by (apply Z.eqb_neq; unfold FatalLevel, DPanicLevel in *; lia).
  assert (H4 : (lvl =? DPanicLevel) = false) by (apply Z.eqb_neq; lia).
  unfold logger.lift, zap.logAt, zap.Logger_check, bind, started; simpl.
  unfold zap.AtomicLevel_Enabled, zap.AtomicLevel_Level, bind, gets, ret,
    Level_Enabled; simpl.
  rewrite H1.
  destruct (zap.level p <=? lvl) eqn:En; simpl; [|reflexivity].
  unfold zap.ioCore_Check, zap.AtomicLevel_Enabled, zap.AtomicLevel_Level,
    bind, gets, ret, Level_Enabled; simpl.
  rewrite En; simpl. rewrite H2, H3, H4; simpl.
  unfold written, lineOf, entryOf, callerOf.
  destruct c as [t st]; destruct st as [|f st]; reflexivity.
Qed.

Lemma emit_gated (e : Emitter) (msg : string) (fields : list Field)
      (c : zap.Call) (p : zap.Process) :
  emit e msg fields c (started p)
  = if zap.level p <=? levelOf (severity e)
    then Ret tt (started (written (levelOf (severity e)) msg fields c p))
    else Ret tt (started p).
Proof.
  destruct e; simpl;
    unfold logger.Debug, logger.Info, logger.Warn, logger.Error,
      zap.Logger_Debug, zap.Logger_Info, zap.Logger_Warn, zap.Logger_Error;
    unfold bind at 1; unfold gets; simpl;
    change (logger.log (started p)) with (logger.log logger.init);
    apply logAt_gated; reflexivity.
Qed.

Lemma lineOf_level (lvl : Level) (msg : string) (fields : list Field) (c : zap.Call) :
  In ("level", JString (Level_String lvl)) (members (lineOf lvl msg fields c)).
Proof. unfold lineOf; simpl; left; reflexivity. Qed.

Lemma lineOf_msg (lvl : Level) (msg : string) (fields : list Field) (c : zap.Call) :
  In ("msg", JString msg) (members (lineOf lvl msg fields c)).
Proof.
  unfold lineOf, entryOf, callerOf; destruct (zap.stack c) as [|f st]; simpl.
  - right; right; left; reflexivity.
  - right; right; right; left; reflexivity.
Qed.

Lemma lineOf_field (lvl : Level) (msg : string) (fields : list Field) (c : zap.Call)
      (f : Field) (kv : string * JValue) :
  In f fields -> In kv (Field_AddTo f) ->
  In kv (members (lineOf lvl msg fields c)).
Proof.
  intros Hf Hkv.
  assert (Hin : In kv (addFields fields))
    by (unfold addFields; apply in_flat_map; exists f; split; assumption).
  unfold lineOf, entryOf, callerOf; destruct (zap.stack c) as [|f0 st]; simpl;
    repeat right; apply in_or_app; left; exact Hin.
Qed.

Lemma written_wroteOneLine (lvl : Level) (msg : string) (fields : list Field)
      (c : zap.Call) (p : zap.Process) :
  wroteOneLine (Ret tt (started (written lvl msg fields c p))) (started p)
               (Level_String lvl) msg.
Proof.
  exists (lineOf lvl msg fields c), (started (written lvl msg fields c p)).
  repeat split; try reflexivity.
  - apply lineOf_level.
  - apply lineOf_msg.
Qed.

(** Writing a line is an effect: the world after it is not the world
    before it. *)
Lemma wroteOneLine_changes (r : Res logger.World unit) (w : logger.World)
      (lvl msg : string) :
  wroteOneLine r w lvl msg -> r <> Ret tt w.
Proof.
  intros (l & w' & -> & _ & _ & Hout & _) Heq.
  injection Heq as ->.
  apply (f_equal (@List.length _)) in Hout.
  rewrite length_app in Hout; simpl in Hout; lia.
Qed.

(** C1. Each of [Debug], [Info], [Warn] and [Error] writes exactly when
    its own severity is at or above the current threshold: it then
    returns after exactly one JSON line on standard output that carries
    its level name and the message, and otherwise returns with the world
    untouched.  With the threshold at [Warn], [Debug] and [Info] write
    nothing, [Warn] and [Error] one line each. *)
Theorem emit_iff_at_or_above_threshold
        (e : Emitter) (msg : string) (fields : list Field)
        (c : zap.Call) (p : zap.Process) :
  (if zap.level p <=? levelOf (severity e)
   then wroteOneLine (emit e msg fields c (started p)) (started p)
                     (nameOf (severity e)) msg
   else emit e msg fields c (started p) = Ret tt (started p))
  /\ (let w := started (atLevel WarnLevel p) in
      logger.Debug msg fields c w = Ret tt w /\
      logger.Info msg fields c w = Ret tt w /\
      wroteOneLine (logger.Warn msg fields c w) w "warn" msg /\
      wroteOneLine (logger.Error msg fields c w) w "error" msg).
Proof.
  split.
  - rewrite emit_gated.
    destruct (zap.level p <=? levelOf (severity e)); [|reflexivity].
    replace (nameOf (severity e)) with (Level_String (levelOf (severity e)))
      by (destruct e; reflexivity).
    apply written_wroteOneLine.
  - cbv zeta.
    pose proof (emit_gated EmDebug msg fields c (atLevel WarnLevel p)) as HD.
    pose proof (emit_gated EmInfo msg fields c (atLevel WarnLevel p)) as HI.
    pose proof (emit_gated EmWarn msg fields c (atLevel WarnLevel p)) as HW.
    pose proof (emit_gated EmError msg fields c (atLevel WarnLevel p)) as HE.
    simpl in HD, HI, HW, HE.
    repeat split; try assumption.
    + rewrite HW. apply (written_wroteOneLine WarnLevel).
    + rewrite HE. apply (written_wroteOneLine ErrorLevel).
Qed.

(* ------------------------------------------------------------------ *)
(** ** Parsing a level *)

(** What the specification has [setLevel] make of an input: the severity
    of the alias it matches case-insensitively, or else whatever the
    fallback parse of zap accepts; [None] when both fail. *)
Definition meaning (U : Unicode) (input : string) : option Level :=
  match assoc (strings.ToLower U input) aliases with
  | Some sev => Some (levelOf sev)
  | None =>
      match Level_Set U InfoLevel input with
      | (l, None) => Some l
      | (_, Some _) => None
      end
  end.

Ltac split_eqb :=
  repeat match goal with
         | |- context [String.eqb ?x ?y] => destruct (String.eqb x y) eqn:?; simpl
         end.

Lemma parseLevel_meaning (U : Unicode) (level : string) :
  logger.parseLevel U level
  = match meaning U level with
    | Some l => inl l
    | None => inr ("invalid log level string: " ++ level)
    end.
Proof.
  unfold logger.parseLevel, meaning; simpl.
  generalize (strings.ToLower U level) as lower; intro lower.
  split_eqb; try reflexivity.
  unfold InfoLevel.
  destruct (Level_Set U 0 level) as [l [e|]]; reflexivity.
Qed.

Lemma SetLogLevel_meaning (U : Unicode) (level : string) (w : logger.World) :
  logger.SetLogLevel U level w
  = match meaning U level with
    | Some l => Ret None (withLevel l w)
    | None => Ret (Some ("invalid log level string: " ++ level)) w
    end.
Proof.
  unfold logger.SetLogLevel; rewrite parseLevel_meaning.
  destruct (meaning U level) as [l|]; reflexivity.
Qed.

(** C2. An input that matches no alias and fails the fallback parse makes
    [SetLogLevel] return the error that names the input, in the world it
    was called in: the threshold, and everything else, is as before.  Any
    other input makes it return nil with the threshold replaced by the
    level the input stands for. *)
Theorem SetLogLevel_error_leaves_threshold
        (U : Unicode) (level : string) (w : logger.World) :
  (meaning U level = None <->
   assoc (strings.ToLower U level) aliases = None /\
   snd (Level_Set U InfoLevel level) <> None)
  /\ match meaning U level with
     | None =>
         logger.SetLogLevel U level w
         = Ret (Some ("invalid log level string: " ++ level)) w
     | Some l =>
         exists w', logger.SetLogLevel U level w = Ret None w' /\
                    logger.atomicLevel w' = l /\ w' = withLevel l w
     end.
Proof.
  split.
  - unfold meaning.
    destruct (assoc (strings.ToLower U level) aliases) as [sev|].
    + split; [discriminate | intros [H _]; discriminate].
    + destruct (Level_Set U InfoLevel level) as [l [e|]]; simpl.
      * split; [intros _; split; [reflexivity | discriminate] | reflexivity].
      * split; [discriminate | intros [_ H]; contradiction].
  - rewrite SetLogLevel_meaning.
    destruct (meaning U level) as [l|]; [|reflexivity].
    exists (withLevel l w); repeat split.
Qed.

(** *** Letter-casings of an alias *)

Definition isLowerLetter (c : ascii) : bool :=
  (97 <=? byte_of c) && (byte_of c <=? 122).

Fixpoint allLower (s : string) : bool :=
  match s with
  | EmptyString => true
  | String c s' => isLowerLetter c && allLower s'
  end.

Lemma letter_casing (x y : ascii) :
  isLowerLetter x = true ->
  (Ascii.eqb y x || Ascii.eqb y (capital x))%bool = true ->
  (strings.RuneSelf <=? byte_of y) = false /\ strings.lowerByte y = x.
Proof.
  intros Hx Hy.
  apply orb_true_iff in Hy.
  destruct Hy as [Hy|Hy]; apply Ascii.eqb_eq in Hy; subst y;
    destruct x as [[] [] [] [] [] [] [] []];
    try discriminate Hx; split; reflexivity.
Qed.

Lemma lowerASCII_id (s : string) :
  strings.hasUpper s = false -> strings.lowerASCII s = s.
Proof.
  induction s as [|c s IH]; simpl; intros H; [reflexivity|].
  apply orb_false_iff in H; destruct H as [Hc Hs].
  unfold strings.lowerByte; rewrite Hc, (IH Hs); reflexivity.
Qed.

Lemma ToLower_ascii (U : Unicode) (s : string) :
  strings.isASCII s = true -> strings.ToLower U s = strings.lowerASCII s.
Proof.
  intros H; unfold strings.ToLower; rewrite H.
  destruct (strings.hasUpper s) eqn:Hu; simpl; [reflexivity|].
  symmetry; apply lowerASCII_id; exact Hu.
Qed.

Lemma casing_lowerASCII (a : string) :
  allLower a = true ->
  forall s, casing a s = true ->
            strings.isASCII s = true /\ strings.lowerASCII s = a.
Proof.
  induction a as [|x a IH]; intros Ha [|y s] Hc; simpl in *;
    try discriminate; [split; reflexivity|].
  apply andb_true_iff in Ha; destruct Ha as [Hx Ha].
  apply andb_true_iff in Hc; destruct Hc as [Hy Hc].
  destruct (letter_casing x y Hx Hy) as [Hr Hl].
  destruct (IH Ha s Hc) as [Hs1 Hs2].
  rewrite Hr, Hl, Hs2; split; [exact Hs1 | reflexivity].
Qed.

Lemma casing_ToLower (U : Unicode) (a s : string) (sev : Severity) :
  In (a, sev) aliases -> casing a s = true -> strings.ToLower U s = a.
Proof.
  intros Hin Hc.
  assert (Ha : allLower a = true).
  { simpl in Hin.
    repeat (destruct Hin as [Hin|Hin];
            [injection Hin as <- _; reflexivity|]); contradiction. }
  destruct (casing_lowerASCII a Ha s Hc) as [H1 H2].
  rewrite ToLower_ascii by exact H1; exact H2.
Qed.

(** The canonical name an alias is read back as. *)
Definition canonical (a : string) : string :=
  if a =s "warning" then "warn" else a.

(** C3. For each of the eight aliases written in any letter-casing,
    [SetLogLevel] returns nil and sets the threshold to the severity of
    the alias; [GetLogLevel] then returns the canonical lowercase name,
    which is the alias itself, and ["warn"] for ["warning"]. *)
Theorem SetLogLevel_alias_any_casing
        (U : Unicode) (a s : string) (sev : Severity) (w : logger.World) :
  In (a, sev) aliases ->
  casing a s = true ->
  exists w',
    logger.SetLogLevel U s w = Ret None w' /\
    logger.atomicLevel w' = levelOf sev /\
    logger.GetLogLevel w' = Ret (canonical a) w' /\
    canonical a = nameOf sev.
Proof.
  intros Hin Hc.
  pose proof (casing_ToLower U a s sev Hin Hc) as Hl.
  exists (withLevel (levelOf sev) w).
  rewrite SetLogLevel_meaning; unfold meaning; rewrite Hl.
  simpl in Hin.
  repeat (destruct Hin as [Hin|Hin];
          [injection Hin as <- <-; repeat split; destruct w; reflexivity|]).
  contradiction.
Qed.

(** C9. The empty string is no alias, the fallback parse of zap accepts
    it as [InfoLevel], and [SetLogLevel] returns nil with the threshold
    at [Info]. *)
Theorem SetLogLevel_empty_string (U : Unicode) (w : logger.World) :
  assoc (strings.ToLower U EmptyString) aliases = None /\
  (forall l, Level_Set U l EmptyString = (InfoLevel, None)) /\
  logger.SetLogLevel U EmptyString w = Ret None (withLevel InfoLevel w) /\
  logger.atomicLevel (withLevel InfoLevel w) = InfoLevel.
Proof. repeat split. Qed.

(* ------------------------------------------------------------------ *)
(** ** What a call leaves alone *)

(** [stable P m]: wherever [m] stops, a state that satisfied [P] still
    does. *)
Definition stable {St A} (P : St -> Prop) (m : M St A) : Prop :=
  forall s, P s -> P (final (m s)).

(** [keeps f m]: [m] does not change the component [f] of the state. *)
Definition keeps {St A X} (f : St -> X) (m : M St A) : Prop :=
  forall s, f (final (m s)) = f s.

Lemma keeps_stable {St A X} (f : St -> X) (P : X -> Prop) (m : M St A) :
  keeps f m -> stable (fun s => P (f s)) m.
Proof. intros H s Hs; rewrite H; exact Hs. Qed.

Lemma stable_ret {St A} (P : St -> Prop) (a : A) : stable P (ret a).
Proof. intros s H; exact H. Qed.

Lemma stable_bind {St A B} (P : St -> Prop) (m : M St A) (k : A -> M St B) :
  stable P m -> (forall a, stable P (k a)) -> stable P (bind m k).
Proof.
  intros Hm Hk s Hs; unfold bind.
  specialize (Hm s Hs).
  destruct (m s) as [a s'|code s'|e s']; simpl in *; [apply Hk|..]; exact Hm.
Qed.

Lemma keeps_ret {St A X} (f : St -> X) (a : A) : keeps f (ret a).
Proof. intros s; reflexivity. Qed.

Lemma keeps_gets {St A X} (f : St -> X) (g : St -> A) : keeps f (gets g).
Proof. intros s; reflexivity. Qed.

Lemma keeps_bind {St A B X} (f : St -> X) (m : M St A) (k : A -> M St B) :
  keeps f m -> (forall a, keeps f (k a)) -> keeps f (bind m k).
Proof.
  intros Hm Hk s; unfold bind.
  specialize (Hm s).
  destruct (m s) as [a s'|code s'|e s']; simpl in *;
    [rewrite Hk|..]; exact Hm.
Qed.

Lemma keeps_if {St A X} (f : St -> X) (b : bool) (m1 m2 : M St A) :
  keeps f m1 -> keeps f m2 -> keeps f (if b then m1 else m2).
Proof. destruct b; auto. Qed.

Create HintDb frame.
#[local] Hint Resolve keeps_ret keeps_gets keeps_if : frame.

Ltac frame :=
  repeat first
    [ solve [auto with frame]
    | apply keeps_bind; [|intro]
    | apply keeps_if ].

(** No method of the logger writes to the threshold. *)
Lemma Write_keeps_level (ws : zap.WriteSyncer) (o : zap.Output) :
  keeps zap.level (zap.WriteSyncer_Write ws o).
Proof. destruct ws as [[]]; intros p; reflexivity. Qed.

Lemma OnWrite_keeps_level (a : CheckWriteAction) (ce : zap.CheckedEntry) :
  keeps zap.level (zap.OnWrite a ce).
Proof. destruct a; intros p; reflexivity. Qed.

#[local] Hint Resolve Write_keeps_level OnWrite_keeps_level : frame.

Lemma writeCores_keeps_level (cs : list zap.ioCore) (ent : Entry)
      (fields : list Field) :
  keeps zap.level (zap.writeCores cs ent fields).
Proof.
  induction cs as [|c cs IH]; simpl; [apply keeps_ret|].
  apply keeps_bind; [apply Write_keeps_level | intros _; exact IH].
Qed.

#[local] Hint Resolve writeCores_keeps_level : frame.

Lemma CheckedEntry_Write_keeps_level (ce : option zap.CheckedEntry)
      (fields : list Field) :
  keeps zap.level (zap.CheckedEntry_Write ce fields).
Proof. destruct ce as [e|]; simpl; frame. Qed.

Lemma Logger_check_keeps_level (lg : zap.Logger) (lvl : Level) (msg : string)
      (c : zap.Call) :
  keeps zap.level (zap.Logger_check lg lvl msg c).
Proof.
  unfold zap.Logger_check, zap.ioCore_Check, zap.AtomicLevel_Enabled,
    zap.AtomicLevel_Level; frame.
  destruct (nth_error (zap.stack c) (zap.callerSkip lg)) as [f|];
    [match goal with
     | |- keeps _ (match ?x with Some _ => _ | None => _ end) => destruct x
     end|]; frame.
Qed.

#[local] Hint Resolve CheckedEntry_Write_keeps_level Logger_check_keeps_level
  : frame.

Lemma logAt_keeps_level (lvl : Level) (lg : zap.Logger) (msg : string)
      (fields : list Field) (c : zap.Call) :
  keeps zap.level (zap.logAt lvl lg msg fields c).
Proof.
  unfold zap.logAt; apply keeps_bind; [frame|].
  intros [e|]; frame.
Qed.

(** A method of zap run from the package leaves [log] alone, and the
    threshold too when the method does. *)
Lemma lift_keeps_log {A} (m : M zap.Process A) : keeps logger.log (logger.lift m).
Proof.
  intros w; unfold logger.lift; destruct (m (logger.process w)); reflexivity.
Qed.

Lemma lift_keeps_level {A} (m : M zap.Process A) :
  keeps zap.level m -> keeps logger.atomicLevel (logger.lift m).
Proof.
  intros H w; specialize (H (logger.process w)); unfold logger.lift.
  destruct (m (logger.process w)); exact H.
Qed.

#[local] Hint Resolve lift_keeps_log lift_keeps_level logAt_keeps_level : frame.

Lemma emitters_keep_log (msg : string) (fields : list Field) (c : zap.Call) :
  keeps logger.log (logger.Debug msg fields c) /\
  keeps logger.log (logger.Info msg fields c) /\
  keeps logger.log (logger.Warn msg fields c) /\
  keeps logger.log (logger.Error msg fields c) /\
  keeps logger.log (logger.Fatal msg fields c).
Proof.
  unfold logger.Debug, logger.Info, logger.Warn, logger.Error, logger.Fatal.
  repeat split; frame.
Qed.

Lemma emitters_keep_level (msg : string) (fields : list Field) (c : zap.Call) :
  keeps logger.atomicLevel (logger.Debug msg fields c) /\
  keeps logger.atomicLevel (logger.Info msg fields c) /\
  keeps logger.atomicLevel (logger.Warn msg fields c) /\
  keeps logger.atomicLevel (logger.Error msg fields c) /\
  keeps logger.atomicLevel (logger.Fatal msg fields c).
Proof.
  unfold logger.Debug, logger.Info, logger.Warn, logger.Error, logger.Fatal,
    zap.Logger_Debug, zap.Logger_Info, zap.Logger_Warn, zap.Logger_Error,
    zap.Logger_Fatal.
  repeat split; frame.
Qed.

Lemma withLevel_same (w : logger.World) : withLevel (logger.atomicLevel w) w = w.
Proof. destruct w as [l [lv o e]]; reflexivity. Qed.

(** [SetLogLevel] changes the threshold and nothing else. *)
Lemma SetLogLevel_only_level (U : Unicode) (level : string) (w : logger.World) :
  final (logger.SetLogLevel U level w)
  = withLevel (logger.atomicLevel (final (logger.SetLogLevel U level w))) w.
Proof.
  rewrite SetLogLevel_meaning.
  destruct (meaning U level) as [l|]; simpl;
    [reflexivity | symmetry; apply withLevel_same].
Qed.

Lemma SetLogLevel_keeps_log (U : Unicode) (level : string) :
  keeps logger.log (logger.SetLogLevel U level).
Proof. intros w; rewrite SetLogLevel_only_level; reflexivity. Qed.

Lemma GetLogLevel_reads (w : logger.World) :
  logger.GetLogLevel w = Ret (Level_String (logger.atomicLevel w)) w.
Proof. destruct w as [l p]; reflexivity. Qed.

Lemma Init_keeps_log (U : Unicode) (env : os.Environ) (c : zap.Call) :
  keeps logger.log (logger.Init U env c).
Proof.
  unfold logger.Init.
  destruct (negb (os.Getenv env "LOG_LEVEL" =s EmptyString)).
  - apply keeps_bind; [apply SetLogLevel_keeps_log|].
    intros [e|]; apply emitters_keep_log.
  - apply emitters_keep_log.
Qed.

Lemma call_keeps_log (U : Unicode) (o : logger.Op) :
  keeps logger.log (logger.call U o).
Proof.
  destruct o; simpl; try apply emitters_keep_log.
  - apply Init_keeps_log.
  - apply keeps_bind; [apply SetLogLevel_keeps_log | intros; apply keeps_ret].
  - intros w; unfold bind; rewrite GetLogLevel_reads; reflexivity.
Qed.

Lemma run_keeps_log (U : Unicode) (ops : list logger.Op) :
  keeps logger.log (logger.run U ops).
Proof.
  induction ops as [|o ops IH]; simpl; [apply keeps_ret|].
  apply keeps_bind; [apply call_keeps_log | intros _; exact IH].
Qed.

(** *** The threshold is a severity *)

Definition isSeverity (w : logger.World) : Prop :=
  exists sev, logger.atomicLevel w = levelOf sev.

Lemma unmarshalText_severity (text : string) (l : Level) :
  unmarshalText text = Some l -> exists sev, l = levelOf sev.
Proof.
  unfold unmarshalText.
  repeat match goal with
         | |- context [if ?b then _ else _] => destruct b
         end;
    intros H; try discriminate H; injection H as <-;
    first [ now exists SDebug | now exists SInfo | now exists SWarn
          | now exists SError | now exists SDPanic | now exists SPanic
          | now exists SFatal ].
Qed.

Lemma meaning_severity (U : Unicode) (input : string) (l : Level) :
  meaning U input = Some l -> exists sev, l = levelOf sev.
Proof.
  unfold meaning.
  destruct (assoc (strings.ToLower U input) aliases) as [sev|].
  - intros H; injection H as <-; exists sev; reflexivity.
  - unfold Level_Set, Level_UnmarshalText.
    destruct (unmarshalText input) as [l1|] eqn:E1.
    + intros H; injection H as <-; exact (unmarshalText_severity _ _ E1).
    + destruct (unmarshalText (strings.ToLower U input)) as [l2|] eqn:E2.
      * intros H; injection H as <-; exact (unmarshalText_severity _ _ E2).
      * discriminate.
Qed.

Lemma SetLogLevel_stable (U : Unicode) (level : string) :
  stable isSeverity (logger.SetLogLevel U level).
Proof.
  intros w Hw; rewrite SetLogLevel_meaning.
  destruct (meaning U level) as [l|] eqn:E; simpl; [|exact Hw].
  destruct (meaning_severity U level l E) as [sev ->].
  exists sev; reflexivity.
Qed.

Lemma emitters_stable (msg : string) (fields : list Field) (c : zap.Call) :
  stable isSeverity (logger.Debug msg fields c) /\
  stable isSeverity (logger.Info msg fields c) /\
  stable isSeverity (logger.Warn msg fields c) /\
  stable isSeverity (logger.Error msg fields c) /\
  stable isSeverity (logger.Fatal msg fields c).
Proof.
  destruct (emitters_keep_level msg fields c) as (H1 & H2 & H3 & H4 & H5).
  repeat split;
    apply (keeps_stable logger.atomicLevel (fun l => exists sev, l = levelOf sev));
    assumption.
Qed.

Lemma Init_stable (U : Unicode) (env : os.Environ) (c : zap.Call) :
  stable isSeverity (logger.Init U env c).
Proof.
  unfold logger.Init.
  destruct (negb (os.Getenv env "LOG_LEVEL" =s EmptyString)).
  - apply stable_bind; [apply SetLogLevel_stable|].
    intros [e|]; apply emitters_stable.
  - apply emitters_stable.
Qed.

Lemma call_stable (U : Unicode) (o : logger.Op) :
  stable isSeverity (logger.call U o).
Proof.
  destruct o; simpl; try apply emitters_stable.
  - apply Init_stable.
  - apply stable_bind; [apply SetLogLevel_stable | intros; apply stable_ret].
  - intros w Hw; unfold bind; rewrite GetLogLevel_reads; exact Hw.
Qed.

Lemma run_stable (U : Unicode) (ops : list logger.Op) :
  stable isSeverity (logger.run U ops).
Proof.
  induction ops as [|o ops IH]; simpl; [apply stable_ret|].
  apply stable_bind; [apply call_stable | intros _; exact IH].
Qed.

(** C8. The threshold is [Info] when [init] has run, and wherever a
    program of calls into the package stops (calls of [SetLogLevel] and
    [Init] with any input, and of the logging functions), the threshold
    is one of the seven severities and [GetLogLevel] returns its
    canonical name. *)
Theorem threshold_always_a_severity (U : Unicode) (ops : list logger.Op) :
  logger.atomicLevel logger.init = levelOf SInfo /\
  logger.GetLogLevel logger.init = Ret "info" logger.init /\
  exists sev,
    logger.atomicLevel (final (logger.run U ops logger.init)) = levelOf sev /\
    logger.GetLogLevel (final (logger.run U ops logger.init))
    = Ret (nameOf sev) (final (logger.run U ops logger.init)).
Proof.
  split; [reflexivity|]. split; [reflexivity|].
  destruct (run_stable U ops logger.init) as [sev Hsev];
    [exists SInfo; reflexivity|].
  exists sev; split; [exact Hsev|].
  rewrite GetLogLevel_reads, Hsev; destruct sev; reflexivity.
Qed.

(** C10. [init] fixes a JSON encoder with the time under ["timestamp"]
    in ISO-8601, caller annotation one frame above the facade, and
    standard output as the sink.  [SetLogLevel] changes the threshold and
    nothing else, [GetLogLevel] changes nothing, and [Init], like every
    program of calls, leaves the logger as [init] built it. *)
Theorem calls_leave_the_encoder_alone (U : Unicode) :
  (exists cfg,
      zap.enc (zap.core (logger.log logger.init)) = jsonEncoder cfg /\
      TimeKey cfg = "timestamp" /\
      EncodeTime cfg = ISO8601TimeEncoder /\
      zap.addCaller (logger.log logger.init) = true /\
      zap.callerSkip (logger.log logger.init) = 1%nat /\
      zap.out (zap.core (logger.log logger.init)) = zap.Lock zap.Stdout)
  /\ (forall level w,
         final (logger.SetLogLevel U level w)
         = withLevel (logger.atomicLevel (final (logger.SetLogLevel U level w))) w)
  /\ (forall w, exists name, logger.GetLogLevel w = Ret name w)
  /\ (forall env c w, logger.log (final (logger.Init U env c w)) = logger.log w)
  /\ (forall ops,
         logger.log (final (logger.run U ops logger.init))
         = logger.log logger.init).
Proof.
  split; [eexists; repeat split|].
  split; [intros; apply SetLogLevel_only_level|].
  split; [intros w; eexists; apply GetLogLevel_reads|].
  split; [intros; apply Init_keeps_log|].
  intros; apply run_keeps_log.
Qed.

(* ------------------------------------------------------------------ *)
(** ** [Fatal] *)

Lemma Fatal_started (msg : string) (fields : list Field) (c : zap.Call)
      (p : zap.Process) :
  logger.Fatal msg fields c (started p)
  = if zap.level p <=? FatalLevel
    then Exit 1 (started (written FatalLevel msg fields c p))
    else Exit 1 (started p).
Proof.
  unfold logger.Fatal, zap.Logger_Fatal, logger.lift, zap.logAt,
    zap.Logger_check, zap.ioCore_Check, zap.AtomicLevel_Enabled,
    zap.AtomicLevel_Level, bind, gets, ret, Level_Enabled, started; simpl.
  destruct (zap.level p <=? FatalLevel) eqn:En; simpl.
  - unfold written, lineOf, entryOf, callerOf.
    destruct c as [t st]; destruct st as [|f st]; reflexivity.
  - reflexivity.
Qed.

(** C7. Whatever severity the threshold is at, [Fatal] writes its line on
    standard output, with the level name ["fatal"] and the message, and
    then ends the process with status 1; the world the process ends in
    holds the line. *)
Theorem Fatal_writes_then_exits
        (sev : Severity) (msg : string) (fields : list Field)
        (c : zap.Call) (p : zap.Process) :
  let w := started (atLevel (levelOf sev) p) in
  exists (l : JSONLine) (w' : logger.World),
    logger.Fatal msg fields c w = Exit 1 w' /\
    1 <> 0 /\
    logger.log w' = logger.log w /\
    logger.atomicLevel w' = logger.atomicLevel w /\
    zap.stdout (logger.process w') = (zap.stdout p ++ [zap.Line l])%list /\
    In ("level", JString "fatal") (members l) /\
    In ("msg", JString msg) (members l).
Proof.
  cbv zeta; rewrite Fatal_started.
  replace (zap.level (atLevel (levelOf sev) p) <=? FatalLevel) with true
    by (destruct sev; reflexivity).
  exists (lineOf FatalLevel msg fields c).
  eexists; split; [reflexivity|].
  repeat split; try discriminate.
  - apply (lineOf_level FatalLevel).
  - apply lineOf_msg.
Qed.

(* ------------------------------------------------------------------ *)
(** ** [Init] *)

(** The result [r] of a call is a normal return in a world with the
    logger of [init], the threshold [lvl] and the standard error of [p];
    on standard output it holds what [p] held and then, when [shown],
    exactly one more JSON line, with the level name [name], the message
    [msg] and the members [extra]. *)
Definition returnsWith (r : Res logger.World unit) (p : zap.Process) (lvl : Level)
           (shown : bool) (name msg : string) (extra : list (string * JValue))
  : Prop :=
  exists w',
    r = Ret tt w' /\
    logger.log w' = logger.log logger.init /\
    logger.atomicLevel w' = lvl /\
    zap.stderr (logger.process w') = zap.stderr p /\
    if shown
    then exists l,
        zap.stdout (logger.process w') = (zap.stdout p ++ [zap.Line l])%list /\
        In ("level", JString name) (members l) /\
        In ("msg", JString msg) (members l) /\
        incl extra (members l)
    else zap.stdout (logger.process w') = zap.stdout p.

Lemma emit_returnsWith (e : Emitter) (msg : string) (fields : list Field)
      (func line : string) (c : zap.Call) (p : zap.Process) :
  returnsWith (emit e msg fields (logger.here func line c) (started p)) p
              (zap.level p) (zap.level p <=? levelOf (severity e))
              (nameOf (severity e)) msg (addFields fields).
Proof.
  rewrite emit_gated.
  destruct (zap.level p <=? levelOf (severity e)); eexists;
    (split; [reflexivity|]); repeat split.
  exists (lineOf (levelOf (severity e)) msg fields (logger.here func line c)).
  repeat split.
  - replace (nameOf (severity e)) with (Level_String (levelOf (severity e)))
      by (destruct e; reflexivity).
    apply lineOf_level.
  - apply lineOf_msg.
  - intros kv Hkv. unfold addFields in Hkv. apply in_flat_map in Hkv.
    destruct Hkv as (f & Hf & Hkv). exact (lineOf_field _ _ _ _ f kv Hf Hkv).
Qed.

(** The three paths of [Init], by what the variable holds. *)
Lemma Init_started (U : Unicode) (env : os.Environ) (c : zap.Call)
      (p : zap.Process) :
  logger.Init U env c (started p)
  = let v := os.Getenv env "LOG_LEVEL" in
    if v =s EmptyString
    then emit EmInfo "Log level is not set, using default 'info'." []
              (logger.here "Init" "66" c) (started p)
    else
      match meaning U v with
      | Some l =>
          emit EmInfo "Log level set from environment." [zap.String "level" v]
               (logger.here "Init" "63" c) (started (atLevel l p))
      | None =>
          emit EmWarn "Invalid LOG_LEVEL provided, using default."
               [zap.String "value" v;
                zap.Error (Some ("invalid log level string: " ++ v))]
               (logger.here "Init" "61" c) (started p)
      end.
Proof.
  unfold logger.Init; cbv zeta.
  destruct (os.Getenv env "LOG_LEVEL" =s EmptyString); simpl; [reflexivity|].
  unfold bind at 1; rewrite SetLogLevel_meaning.
  destruct (meaning U (os.Getenv env "LOG_LEVEL")); reflexivity.
Qed.

(** C4, amended. For every non-empty valid value of [LOG_LEVEL], [Init]
    returns with the threshold at the level of the value; the
    informational message that confirms it, with the value under
    ["level"], is written exactly when the new threshold is [Debug] or
    [Info], and nothing is written otherwise. *)
Theorem Init_valid_level
        (U : Unicode) (env : os.Environ) (c : zap.Call) (p : zap.Process)
        (l : Level) :
  os.Getenv env "LOG_LEVEL" <> EmptyString ->
  meaning U (os.Getenv env "LOG_LEVEL") = Some l ->
  returnsWith (logger.Init U env c (started p)) p l (l <=? InfoLevel)
              "info" "Log level set from environment."
              [("level", JString (os.Getenv env "LOG_LEVEL"))].
Proof.
  intros Hne Hv; rewrite Init_started; cbv zeta.
  apply String.eqb_neq in Hne; rewrite Hne, Hv.
  destruct (emit_returnsWith EmInfo "Log level set from environment."
              [zap.String "level" (os.Getenv env "LOG_LEVEL")]
              "Init" "63" c (atLevel l p)) as (w' & H).
  exists w'; exact H.
Qed.

(** C5, amended. When [LOG_LEVEL] holds a non-empty invalid value, [Init]
    returns normally with the threshold as it was; the warning, with the
    offending value under ["value"] and the parse error under ["error"],
    is written exactly when that threshold is [Warn] or below, and nothing
    is written otherwise. *)
Theorem Init_invalid_level
        (U : Unicode) (env : os.Environ) (c : zap.Call) (p : zap.Process) :
  os.Getenv env "LOG_LEVEL" <> EmptyString ->
  meaning U (os.Getenv env "LOG_LEVEL") = None ->
  returnsWith (logger.Init U env c (started p)) p (zap.level p)
              (zap.level p <=? WarnLevel)
              "warn" "Invalid LOG_LEVEL provided, using default."
              [("value", JString (os.Getenv env "LOG_LEVEL"));
               ("error", JString ("invalid log level string: "
                                    ++ os.Getenv env "LOG_LEVEL"))].
Proof.
  intros Hne Hv; rewrite Init_started; cbv zeta.
  apply String.eqb_neq in Hne; rewrite Hne, Hv.
  exact (emit_returnsWith EmWarn "Invalid LOG_LEVEL provided, using default."
           [zap.String "value" (os.Getenv env "LOG_LEVEL");
            zap.Error (Some ("invalid log level string: "
                               ++ os.Getenv env "LOG_LEVEL"))]
           "Init" "61" c p).
Qed.

(** C6, amended. When [LOG_LEVEL] is unset or empty, [Init] returns with
    the threshold as it was, [Info] in a fresh process; the informational
    message about the default is written exactly when that threshold is
    [Debug] or [Info], and nothing is written otherwise. *)
Theorem Init_unset_or_empty
        (U : Unicode) (env : os.Environ) (c : zap.Call) (p : zap.Process) :
  env "LOG_LEVEL" = None \/ env "LOG_LEVEL" = Some EmptyString ->
  returnsWith (logger.Init U env c (started p)) p (zap.level p)
              (zap.level p <=? InfoLevel)
              "info" "Log level is not set, using default 'info'." []
  /\ logger.atomicLevel logger.init = InfoLevel.
Proof.
  intros Henv; split; [|reflexivity].
  assert (Hv : os.Getenv env "LOG_LEVEL" = EmptyString)
    by (unfold os.Getenv; destruct Henv as [-> | ->]; reflexivity).
  rewrite Init_started; cbv zeta; rewrite Hv; simpl (_ =s _).
  exact (emit_returnsWith EmInfo "Log level is not set, using default 'info'."
           [] "Init" "66" c p).
Qed.

(* ------------------------------------------------------------------ *)
(** ** Concrete runs *)

(** On a string of ASCII bytes the package never reaches the Unicode
    tables: [SetLogLevel] and [Init] do the same whatever the two library
    functions are. *)
Lemma meaning_ascii_any_tables (U1 U2 : Unicode) (s : string) :
  strings.isASCII s = true -> meaning U1 s = meaning U2 s.
Proof.
  intros H; unfold meaning, Level_Set, Level_UnmarshalText.
  rewrite (ToLower_ascii U1 s H), (ToLower_ascii U2 s H).
  destruct (assoc (strings.lowerASCII s) aliases); [reflexivity|].
  destruct (unmarshalText s); [reflexivity|].
  destruct (unmarshalText (strings.lowerASCII s)); reflexivity.
Qed.

Lemma SetLogLevel_ascii_any_tables (U1 U2 : Unicode) (s : string) (w : logger.World) :
  strings.isASCII s = true ->
  logger.SetLogLevel U1 s w = logger.SetLogLevel U2 s w.
Proof.
  intros H; rewrite !SetLogLevel_meaning, (meaning_ascii_any_tables U1 U2 s H).
  reflexivity.
Qed.

Lemma Init_ascii_any_tables (U1 U2 : Unicode) (env : os.Environ) (c : zap.Call)
      (w : logger.World) :
  strings.isASCII (os.Getenv env "LOG_LEVEL") = true ->
  logger.Init U1 env c w = logger.Init U2 env c w.
Proof.
  intros H; unfold logger.Init.
  destruct (negb (os.Getenv env "LOG_LEVEL" =s EmptyString)); [|reflexivity].
  unfold bind.
  rewrite (SetLogLevel_ascii_any_tables U1 U2 _ w H); reflexivity.
Qed.

(** The runs below are on ASCII inputs; the tables are stood in for by
    the identity. *)
Definition noTables : Unicode :=
  {| mapToLower := fun s => s; Quote := fun s => s |}.

(** A call from line 10 of [main.go], at some instant. *)
Definition fromMain : zap.Call :=
  {| zap.now := 1767225600000000000;
     zap.stack := [{| zap.frame_path := "app/main.go:10";
                      zap.frame_func := "main.main" |}] |}.

(** An environment where [LOG_LEVEL] holds [v] and nothing else is set. *)
Definition logLevelIs (v : string) : os.Environ :=
  os.Setenv os.empty "LOG_LEVEL" v.

Example SetLogLevel_not_a_level :
  logger.SetLogLevel noTables "not-a-level" logger.init
  = Ret (Some "invalid log level string: not-a-level") logger.init.
Proof. reflexivity. Qed.

Example Init_debug_line :
  logger.Init noTables (logLevelIs "debug") fromMain logger.init
  = Ret tt
      (started
         {| zap.level := DebugLevel;
            zap.stdout :=
              [zap.Line
                 {| members :=
                      [("level", JString "info");
                       ("timestamp", JTime ISO8601TimeEncoder 1767225600000000000);
                       ("caller", JString "logger/logger.go:63");
                       ("msg", JString "Log level set from environment.");
                       ("level", JString "debug")];
                    ending := DefaultLineEnding |}];
            zap.stderr := [] |}).
Proof. reflexivity. Qed.

(** With the threshold at [Debug], the four gated functions print four
    lines in call order, each with the caller one frame above the
    facade. *)
Example four_lines_at_Debug :
  logger.run noTables
    [logger.CallSetLogLevel "DEBUG";
     logger.CallDebug "d" [zap.String "key" "value"] fromMain;
     logger.CallInfo "i" [zap.Int "count" 42] fromMain;
     logger.CallWarn "w" [] fromMain;
     logger.CallError "e" [] fromMain] logger.init
  = Ret tt
      (started
         {| zap.level := DebugLevel;
            zap.stdout :=
              map (fun l => zap.Line {| members := l; ending := DefaultLineEnding |})
                  [[("level", JString "debug");
                    ("timestamp", JTime ISO8601TimeEncoder 1767225600000000000);
                    ("caller", JString "app/main.go:10");
                    ("msg", JString "d"); ("key", JString "value")];
                   [("level", JString "info");
                    ("timestamp", JTime ISO8601TimeEncoder 1767225600000000000);
                    ("caller", JString "app/main.go:10");
                    ("msg", JString "i"); ("count", JNumber 42)];
                   [("level", JString "warn");
                    ("timestamp", JTime ISO8601TimeEncoder 1767225600000000000);
                    ("caller", JString "app/main.go:10");
                    ("msg", JString "w")];
                   [("level", JString "error");
                    ("timestamp", JTime ISO8601TimeEncoder 1767225600000000000);
                    ("caller", JString "app/main.go:10");
                    ("msg", JString "e")]];
            zap.stderr := [] |}).
Proof. reflexivity. Qed.

(** A threshold above every severity, which no call of the package can
    set, is the one case where [Fatal] ends the process without a line. *)
Example Fatal_above_every_severity :
  logger.Fatal "boom" [] fromMain (started (atLevel (FatalLevel + 1) (logger.process logger.init)))
  = Exit 1 (started (atLevel (FatalLevel + 1) (logger.process logger.init))).
Proof. reflexivity. Qed.

Lemma SetLogLevel_alias_any_casing_witness :
  (In ("warning", SWarn) aliases /\ casing "warning" "WaRnInG" = true) /\
  exists w',
    logger.SetLogLevel noTables "WaRnInG" logger.init = Ret None w' /\
    logger.atomicLevel w' = levelOf SWarn /\
    logger.GetLogLevel w' = Ret (canonical "warning") w' /\
    canonical "warning" = nameOf SWarn.
Proof.
  split.
  - split; [simpl; tauto | reflexivity].
  - apply (SetLogLevel_alias_any_casing noTables "warning" "WaRnInG" SWarn
                                        logger.init);
      [simpl; tauto | reflexivity].
Defined.

Lemma Init_valid_level_witness :
  (os.Getenv (logLevelIs "debug") "LOG_LEVEL" <> EmptyString /\
   meaning noTables (os.Getenv (logLevelIs "debug") "LOG_LEVEL") = Some DebugLevel) /\
  returnsWith
    (logger.Init noTables (logLevelIs "debug") fromMain
                 (started (logger.process logger.init)))
    (logger.process logger.init) DebugLevel (DebugLevel <=? InfoLevel)
    "info" "Log level set from environment."
    [("level", JString (os.Getenv (logLevelIs "debug") "LOG_LEVEL"))].
Proof.
  split.
  - split; [vm_compute; discriminate | reflexivity].
  - apply (Init_valid_level noTables (logLevelIs "debug") fromMain
                            (logger.process logger.init) DebugLevel);
      [vm_compute; discriminate | reflexivity].
Defined.

Lemma Init_invalid_level_witness :
  (os.Getenv (logLevelIs "bogus") "LOG_LEVEL" <> EmptyString /\
   meaning noTables (os.Getenv (logLevelIs "bogus") "LOG_LEVEL") = None) /\
  returnsWith
    (logger.Init noTables (logLevelIs "bogus") fromMain
                 (started (logger.process logger.init)))
    (logger.process logger.init) InfoLevel (InfoLevel <=? WarnLevel)
    "warn" "Invalid LOG_LEVEL provided, using default."
    [("value", JString (os.Getenv (logLevelIs "bogus") "LOG_LEVEL"));
     ("error", JString ("invalid log level string: "
                          ++ os.Getenv (logLevelIs "bogus") "LOG_LEVEL"))].
Proof.
  split.
  - split; [vm_compute; discriminate | reflexivity].
  - apply (Init_invalid_level noTables (logLevelIs "bogus") fromMain
                              (logger.process logger.init));
      [vm_compute; discriminate | reflexivity].
Defined.

Lemma Init_unset_or_empty_witness :
  (os.empty "LOG_LEVEL" = None \/ os.empty "LOG_LEVEL" = Some EmptyString) /\
  returnsWith
    (logger.Init noTables os.empty fromMain (started (logger.process logger.init)))
    (logger.process logger.init) InfoLevel (InfoLevel <=? InfoLevel)
    "info" "Log level is not set, using default 'info'." []
  /\ logger.atomicLevel logger.init = InfoLevel.
Proof.
  split.
  - left; reflexivity.
  - apply (Init_unset_or_empty noTables os.empty fromMain
                               (logger.process logger.init)).
    left; reflexivity.
Defined.

(** C4 as stated fails: ["warn"] is a valid value of [LOG_LEVEL], and
    [Init] in a fresh process moves the threshold to [Warn] and returns
    with nothing on standard output; the message it logs at [Info] is
    below the threshold it has just set. *)
Lemma Init_valid_level_silent :
  meaning noTables "warn" = Some WarnLevel /\
  logger.Init noTables (logLevelIs "warn") fromMain logger.init
  = Ret tt (withLevel WarnLevel logger.init) /\
  zap.stdout (logger.process (withLevel WarnLevel logger.init)) = [] /\
  ~ returnsWith
      (logger.Init noTables (logLevelIs "warn") fromMain logger.init)
      (logger.process logger.init) WarnLevel true
      "info" "Log level set from environment." [("level", JString "warn")].
Proof.
  repeat split.
  intros (w' & Heq & _ & _ & _ & l & Hout & _).
  injection Heq as <-.
  discriminate Hout.
Qed.

(** C5 as stated fails: once [SetLogLevel "error"] has raised the
    threshold, [Init] with the invalid value ["bogus"] returns with
    nothing on standard output; the warning is below the threshold. *)
Lemma Init_invalid_level_silent :
  meaning noTables "bogus" = None /\
  logger.run noTables
    [logger.CallSetLogLevel "error";
     logger.CallInit (logLevelIs "bogus") fromMain] logger.init
  = Ret tt (withLevel ErrorLevel logger.init) /\
  zap.stdout (logger.process (withLevel ErrorLevel logger.init)) = [] /\
  ~ returnsWith
      (logger.Init noTables (logLevelIs "bogus") fromMain
                   (withLevel ErrorLevel logger.init))
      (logger.process (withLevel ErrorLevel logger.init)) ErrorLevel true
      "warn" "Invalid LOG_LEVEL provided, using default."
      [("value", JString "bogus")].
Proof.
  repeat split.
  intros (w' & Heq & _ & _ & _ & l & Hout & _).
  injection Heq as <-.
  discriminate Hout.
Qed.

(** C6 as stated fails: once [SetLogLevel "warn"] has raised the
    threshold, [Init] with [LOG_LEVEL] unset returns with nothing on
    standard output; the message about the default is below the
    threshold. *)
Lemma Init_unset_silent :
  os.empty "LOG_LEVEL" = None /\
  logger.run noTables
    [logger.CallSetLogLevel "warn"; logger.CallInit os.empty fromMain]
    logger.init
  = Ret tt (withLevel WarnLevel logger.init) /\
  zap.stdout (logger.process (withLevel WarnLevel logger.init)) = [] /\
  ~ returnsWith
      (logger.Init noTables os.empty fromMain (withLevel WarnLevel logger.init))
      (logger.process (withLevel WarnLevel logger.init)) WarnLevel true
      "info" "Log level is not set, using default 'info'." [].
Proof.
  repeat split.
  intros (w' & Heq & _ & _ & _ & l & Hout & _).
  injection Heq as <-.
  discriminate Hout.
Qed.


(* ------------------------------------------------------------------ *)
(** ** Any logger: how a call ends *)

Lemma final_bind {St A B} (m : M St A) (k : A -> M St B) (s : St) :
  final (bind m k s)
  = match m s with
    | Ret a s' => final (k a s')
    | Exit _ s' => s'
    | Panic _ s' => s'
    end.
Proof. unfold bind; destruct (m s); reflexivity. Qed.

(** A method below [DPanicLevel] returns, whatever the logger: in the
    state it was called in when the threshold is above its level. *)
Lemma logAt_returns (lg : zap.Logger) (lvl : Level) (msg : string)
      (fields : list Field) (c : zap.Call) (p : zap.Process) :
  lvl < DPanicLevel ->
  exists p', zap.logAt lvl lg msg fields c p = Ret tt p' /\
             ((zap.level p <=? lvl) = false -> p' = p).
Proof.
  intros Hlt.
  assert (H1 : (lvl <? DPanicLevel) = true) by (apply Z.ltb_lt; exact Hlt).
  assert (H2 : (lvl =? PanicLevel) = false)
    by (apply Z.eqb_neq; unfold PanicLevel, DPanicLevel in *; lia).
  assert (H3 : (lvl =? FatalLevel) = false)
    by (apply Z.eqb_neq; unfold FatalLevel, DPanicLevel in *; lia).
  assert (H4 : (lvl =? DPanicLevel) = false) by (apply Z.eqb_neq; lia).
  unfold zap.logAt, zap.Logger_check, zap.ioCore_Check,
    zap.AtomicLevel_Enabled, zap.AtomicLevel_Level, bind, gets, ret,
    Level_Enabled; simpl.
  rewrite H1.
  destruct (zap.level p <=? lvl) eqn:En; simpl;
    [|eexists; split; [reflexivity | reflexivity]].
  rewrite ?En, ?H2, ?H3, ?H4; simpl.
  destruct lg as [[en [[]]] dev [] nm [[]] skip]; simpl;
    rewrite ?En, ?H2, ?H3, ?H4; simpl;
    try (destruct (nth_error (zap.stack c) skip); simpl);
    eexists; (split; [reflexivity | discriminate]).
Qed.

(** [Logger.Fatal] ends the process with status 1, whatever the logger
    and the threshold. *)
Lemma logAt_Fatal_exits (lg : zap.Logger) (msg : string) (fields : list Field)
      (c : zap.Call) (p : zap.Process) :
  exists p', zap.logAt FatalLevel lg msg fields c p = Exit 1 p'.
Proof.
  unfold zap.logAt, zap.Logger_check, zap.ioCore_Check,
    zap.AtomicLevel_Enabled, zap.AtomicLevel_Level, bind, gets, ret,
    Level_Enabled; simpl.
  destruct (zap.level p <=? FatalLevel) eqn:En; simpl; rewrite ?En; simpl;
    [|eexists; reflexivity].
  destruct lg as [[en [[]]] dev [] nm [[]] skip]; simpl;
    rewrite ?En; simpl;
    try (destruct (nth_error (zap.stack c) skip); simpl);
    eexists; reflexivity.
Qed.

Lemma lift_Ret {A} (m : M zap.Process A) (w : logger.World) (a : A)
      (p' : zap.Process) :
  m (logger.process w) = Ret a p' ->
  logger.lift m w = Ret a {| logger.log := logger.log w; logger.process := p' |}.
Proof. intros H; unfold logger.lift; rewrite H; reflexivity. Qed.

Lemma emit_unfold (e : Emitter) (msg : string) (fields : list Field)
      (c : zap.Call) (w : logger.World) :
  exists func line,
    emit e msg fields c w
    = logger.lift (zap.logAt (levelOf (severity e)) (logger.log w) msg fields
                             (logger.here func line c)) w.
Proof. destruct e; do 2 eexists; reflexivity. Qed.

Lemma emit_returns (e : Emitter) (msg : string) (fields : list Field)
      (c : zap.Call) (w : logger.World) :
  exists w',
    emit e msg fields c w = Ret tt w' /\
    logger.log w' = logger.log w /\
    logger.atomicLevel w' = logger.atomicLevel w /\
    ((logger.atomicLevel w <=? levelOf (severity e)) = false -> w' = w).
Proof.
  destruct (emit_unfold e msg fields c w) as (func & line & ->).
  destruct (logAt_returns (logger.log w) (levelOf (severity e)) msg fields
              (logger.here func line c) (logger.process w)) as (p' & Hr & Hsame);
    [destruct e; reflexivity|].
  rewrite (lift_Ret _ w tt p' Hr).
  eexists; split; [reflexivity|]. split; [reflexivity|]. split.
  - pose proof (logAt_keeps_level (levelOf (severity e)) (logger.log w) msg
                  fields (logger.here func line c) (logger.process w)) as Hk.
    rewrite Hr in Hk; exact Hk.
  - intros Hoff; rewrite (Hsame Hoff); destruct w; reflexivity.
Qed.

(** X1. Whatever logger the package holds and whatever the threshold,
    [Debug], [Info], [Warn] and [Error] return normally: they never end
    the process and never panic, they leave the logger and the threshold
    alone, and below the threshold they leave the whole world alone. *)
Theorem gated_emitters_always_return
        (e : Emitter) (msg : string) (fields : list Field) (c : zap.Call)
        (w : logger.World) :
  exists w',
    emit e msg fields c w = Ret tt w' /\
    logger.log w' = logger.log w /\
    logger.atomicLevel w' = logger.atomicLevel w /\
    ((logger.atomicLevel w <=? levelOf (severity e)) = false -> w' = w).
Proof. exact (emit_returns e msg fields c w). Qed.

Lemma Fatal_exits (msg : string) (fields : list Field) (c : zap.Call)
      (w : logger.World) :
  exists w',
    logger.Fatal msg fields c w = Exit 1 w' /\
    logger.log w' = logger.log w /\
    logger.atomicLevel w' = logger.atomicLevel w.
Proof.
  destruct (logAt_Fatal_exits (logger.log w) msg fields
              (logger.here "Fatal" "92" c) (logger.process w)) as (p' & Hp).
  pose proof (logAt_keeps_level FatalLevel (logger.log w) msg fields
                (logger.here "Fatal" "92" c) (logger.process w)) as Hk.
  rewrite Hp in Hk; simpl in Hk.
  exists {| logger.log := logger.log w; logger.process := p' |}.
  repeat split; [|exact Hk].
  unfold logger.Fatal, zap.Logger_Fatal, bind, gets, logger.lift.
  rewrite Hp; reflexivity.
Qed.

(** X2. [Fatal] never returns: whatever the logger and the threshold, it
    ends the process with status 1, and in a program no call placed after
    it runs; the program ends where [Fatal] ended. *)
Theorem Fatal_ends_the_program
        (U : Unicode) (msg : string) (fields : list Field) (c : zap.Call)
        (ops : list logger.Op) (w : logger.World) :
  exists w',
    logger.Fatal msg fields c w = Exit 1 w' /\
    logger.run U (logger.CallFatal msg fields c :: ops) w = Exit 1 w' /\
    logger.log w' = logger.log w /\
    logger.atomicLevel w' = logger.atomicLevel w.
Proof.
  destruct (Fatal_exits msg fields c w) as (w' & Hf & Hl & Ha).
  exists w'; repeat split; try assumption.
  simpl; unfold bind; rewrite Hf; reflexivity.
Qed.

(** The threshold [Init] leaves behind: the level of a non-empty valid
    value of [LOG_LEVEL], and the threshold it found otherwise. *)
Definition thresholdAfterInit (U : Unicode) (env : os.Environ) (before : Level)
  : Level :=
  if os.Getenv env "LOG_LEVEL" =s EmptyString then before
  else match meaning U (os.Getenv env "LOG_LEVEL") with
       | Some l => l
       | None => before
       end.

Lemma Init_returns (U : Unicode) (env : os.Environ) (c : zap.Call)
      (w : logger.World) :
  exists w',
    logger.Init U env c w = Ret tt w' /\
    logger.log w' = logger.log w /\
    logger.atomicLevel w' = thresholdAfterInit U env (logger.atomicLevel w).
Proof.
  unfold logger.Init, thresholdAfterInit; cbv zeta.
  destruct (os.Getenv env "LOG_LEVEL" =s EmptyString); simpl.
  - destruct (emit_returns EmInfo "Log level is not set, using default 'info'."
                [] (logger.here "Init" "66" c) w) as (w' & H1 & H2 & H3 & _).
    exists w'; repeat split; assumption.
  - unfold bind at 1; rewrite SetLogLevel_meaning.
    destruct (meaning U (os.Getenv env "LOG_LEVEL")) as [l|].
    + destruct (emit_returns EmInfo "Log level set from environment."
                  [zap.String "level" (os.Getenv env "LOG_LEVEL")]
                  (logger.here "Init" "63" c) (withLevel l w))
        as (w' & H1 & H2 & H3 & _).
      exists w'; repeat split; assumption.
    + destruct (emit_returns EmWarn "Invalid LOG_LEVEL provided, using default."
                  [zap.String "value" (os.Getenv env "LOG_LEVEL");
                   zap.Error (Some ("invalid log level string: "
                                      ++ os.Getenv env "LOG_LEVEL"))]
                  (logger.here "Init" "61" c) w) as (w' & H1 & H2 & H3 & _).
      exists w'; repeat split; assumption.
Qed.

(** X3. [Init] always returns normally, whatever the environment, the
    logger and the threshold: it never ends the process and raises no
    error.  It leaves the logger alone, and the threshold it leaves is the
    level of [LOG_LEVEL] when that is non-empty and valid, and the
    threshold it found in every other case; an empty [LOG_LEVEL] is
    treated as an unset one and does not set [Info]. *)
Theorem Init_always_returns
        (U : Unicode) (env : os.Environ) (c : zap.Call) (w : logger.World) :
  (exists w',
      logger.Init U env c w = Ret tt w' /\
      logger.log w' = logger.log w /\
      logger.atomicLevel w' = thresholdAfterInit U env (logger.atomicLevel w))
  /\ thresholdAfterInit U (os.Setenv env "LOG_LEVEL" EmptyString)
                        (logger.atomicLevel w)
     = logger.atomicLevel w
  /\ thresholdAfterInit U (os.Unsetenv env "LOG_LEVEL") (logger.atomicLevel w)
     = logger.atomicLevel w.
Proof.
  split; [apply Init_returns|]. split; reflexivity.
Qed.

Lemma thresholdAfterInit_twice (U : Unicode) (env : os.Environ) (l : Level) :
  thresholdAfterInit U env (thresholdAfterInit U env l)
  = thresholdAfterInit U env l.
Proof.
  unfold thresholdAfterInit.
  destruct (os.Getenv env "LOG_LEVEL" =s EmptyString); [reflexivity|].
  destruct (meaning U (os.Getenv env "LOG_LEVEL")); reflexivity.
Qed.

(** X4. Calling [Init] again in the same environment does not move the
    threshold: after [Init; Init] it is what it was after the first
    call, whenever the two calls are made. *)
Theorem Init_twice_same_threshold
        (U : Unicode) (env : os.Environ) (c1 c2 : zap.Call) (w : logger.World) :
  logger.atomicLevel
    (final (logger.run U [logger.CallInit env c1; logger.CallInit env c2] w))
  = logger.atomicLevel (final (logger.Init U env c1 w)).
Proof.
  destruct (Init_returns U env c1 w) as (w1 & H1 & _ & L1).
  destruct (Init_returns U env c2 w1) as (w2 & H2 & _ & L2).
  simpl; unfold bind; rewrite H1, H2; simpl.
  rewrite L2, L1; apply thresholdAfterInit_twice.
Qed.

(* ------------------------------------------------------------------ *)
(** ** ASCII inputs of [SetLogLevel] *)

Lemma lowerASCII_no_upper (s : string) :
  strings.hasUpper (strings.lowerASCII s) = false.
Proof.
  induction s as [|c s IH]; simpl; [reflexivity|].
  rewrite IH, orb_false_r.
  unfold strings.lowerByte.
  destruct (strings.isUpper c) eqn:Hc; [|exact Hc].
  destruct c as [[] [] [] [] [] [] [] []]; try discriminate Hc; reflexivity.
Qed.

Lemma lowerASCII_empty (s : string) :
  (strings.lowerASCII s =s EmptyString) = (s =s EmptyString).
Proof. destruct s; reflexivity. Qed.

Ltac split_on t H :=
  repeat match goal with
         | |- context [String.eqb t ?lit] =>
             let E := fresh "E" in
             destruct (String.eqb t lit) eqn:E;
             [apply String.eqb_eq in E; subst t;
              first [discriminate H | reflexivity]|];
             simpl
         end.

(** Outside the aliases, [unmarshalText] takes the empty string only,
    on a text without capitals as well as on a text whose lowercase is
    no alias. *)
Lemma unmarshalText_lowered (t : string) :
  assoc t aliases = None ->
  strings.hasUpper t = false ->
  unmarshalText t = if t =s EmptyString then Some InfoLevel else None.
Proof.
  intros Ha Hu; unfold unmarshalText.
  repeat match goal with
         | |- context [String.eqb t ?lit] =>
             let E := fresh "E" in
             destruct (String.eqb t lit) eqn:E;
             [apply String.eqb_eq in E; subst t;
              first [discriminate Ha | discriminate Hu | reflexivity]|];
             simpl
         end.
  reflexivity.
Qed.

Lemma unmarshalText_raw (s : string) :
  assoc (strings.lowerASCII s) aliases = None ->
  unmarshalText s = if s =s EmptyString then Some InfoLevel else None.
Proof.
  intros Ha; unfold unmarshalText.
  split_on s Ha.
  reflexivity.
Qed.

(** What an ASCII input stands for: the severity of the alias its
    lowercase is, [Info] when it is empty, nothing otherwise. *)
Lemma meaning_ascii (U : Unicode) (s : string) :
  strings.isASCII s = true ->
  meaning U s
  = match assoc (strings.lowerASCII s) aliases with
    | Some sev => Some (levelOf sev)
    | None => if s =s EmptyString then Some InfoLevel else None
    end.
Proof.
  intros H; unfold meaning, Level_Set, Level_UnmarshalText.
  rewrite (ToLower_ascii U s H).
  destruct (assoc (strings.lowerASCII s) aliases) as [sev|] eqn:Ha;
    [reflexivity|].
  rewrite (unmarshalText_raw s Ha).
  rewrite (unmarshalText_lowered _ Ha (lowerASCII_no_upper s)).
  rewrite lowerASCII_empty.
  destruct (s =s EmptyString); reflexivity.
Qed.

(** X5. For an input of ASCII bytes, [SetLogLevel] returns nil exactly
    when the lowercased input is one of the eight aliases or the input is
    empty: the fallback parse of zap adds the empty string and nothing
    else.  Every other ASCII input is an error. *)
Theorem SetLogLevel_ascii_accepts
        (U : Unicode) (s : string) (w : logger.World) :
  strings.isASCII s = true ->
  ((exists w', logger.SetLogLevel U s w = Ret None w') <->
   (assoc (strings.lowerASCII s) aliases <> None \/ s = EmptyString))
  /\ ((exists e, logger.SetLogLevel U s w = Ret (Some e) w) <->
      (assoc (strings.lowerASCII s) aliases = None /\ s <> EmptyString)).
Proof.
  intros H; rewrite SetLogLevel_meaning, (meaning_ascii U s H).
  destruct (assoc (strings.lowerASCII s) aliases) as [sev|].
  - split; split.
    + intros _; left; discriminate.
    + intros _; eexists; reflexivity.
    + intros [e He]; discriminate He.
    + intros [Hn _]; discriminate Hn.
  - destruct (s =s EmptyString) eqn:E.
    + apply String.eqb_eq in E. split; split.
      * intros _; right; exact E.
      * intros _; eexists; reflexivity.
      * intros [e He]; discriminate He.
      * intros [_ Hn]; contradiction.
    + apply String.eqb_neq in E. split; split.
      * intros [w' Hw]; discriminate Hw.
      * intros [Hn|Hn]; [contradiction Hn; reflexivity | contradiction].
      * intros _; split; [reflexivity | exact E].
      * intros _; eexists; reflexivity.
Qed.

Lemma meaning_case_insensitive (U : Unicode) (s t : string) :
  strings.isASCII s = true -> strings.isASCII t = true ->
  strings.lowerASCII s = strings.lowerASCII t ->
  meaning U s = meaning U t.
Proof.
  intros Hs Ht Heq.
  rewrite (meaning_ascii U s Hs), (meaning_ascii U t Ht), <- Heq.
  rewrite <- (lowerASCII_empty s), <- (lowerASCII_empty t), Heq.
  reflexivity.
Qed.

(** X6. [SetLogLevel] is case-insensitive on ASCII inputs: two inputs
    that differ only in the case of their letters leave the same world
    behind, both setting the same threshold or both failing. *)
Theorem SetLogLevel_case_insensitive
        (U : Unicode) (s t : string) (w : logger.World) :
  strings.isASCII s = true -> strings.isASCII t = true ->
  strings.lowerASCII s = strings.lowerASCII t ->
  final (logger.SetLogLevel U s w) = final (logger.SetLogLevel U t w) /\
  (logger.SetLogLevel U s w = Ret None (final (logger.SetLogLevel U s w)) <->
   logger.SetLogLevel U t w = Ret None (final (logger.SetLogLevel U t w))).
Proof.
  intros Hs Ht Heq.
  rewrite !SetLogLevel_meaning, (meaning_case_insensitive U s t Hs Ht Heq).
  destruct (meaning U t); simpl; split; try reflexivity;
    split; intros; try reflexivity; discriminate.
Qed.

Lemma SetLogLevel_canonical_name (U : Unicode) (sev : Severity) (w : logger.World) :
  logger.SetLogLevel U (nameOf sev) w = Ret None (withLevel (levelOf sev) w).
Proof. destruct sev; reflexivity. Qed.

(** X7. Round trip: wherever a program of calls stops, the name that
    [GetLogLevel] returns is an input that [SetLogLevel] accepts, and
    setting it changes nothing. *)
Theorem GetLogLevel_SetLogLevel_round_trip
        (U : Unicode) (ops : list logger.Op) :
  let w := final (logger.run U ops logger.init) in
  exists name,
    logger.GetLogLevel w = Ret name w /\
    logger.SetLogLevel U name w = Ret None w.
Proof.
  cbv zeta.
  destruct (run_stable U ops logger.init) as [sev Hsev];
    [exists SInfo; reflexivity|].
  exists (nameOf sev); split.
  - rewrite GetLogLevel_reads, Hsev; destruct sev; reflexivity.
  - rewrite SetLogLevel_canonical_name, <- Hsev; f_equal; apply withLevel_same.
Qed.

Lemma withLevel_withLevel (l1 l2 : Level) (w : logger.World) :
  withLevel l2 (withLevel l1 w) = withLevel l2 w.
Proof. reflexivity. Qed.

(** X8. The last successful [SetLogLevel] wins: after two calls the world
    is the one the second call alone leaves when its input is accepted,
    and the one the first call left when it is not. *)
Theorem SetLogLevel_last_wins
        (U : Unicode) (a b : string) (w : logger.World) :
  final (logger.run U [logger.CallSetLogLevel a; logger.CallSetLogLevel b] w)
  = match logger.SetLogLevel U b w with
    | Ret None wb => wb
    | _ => final (logger.SetLogLevel U a w)
    end.
Proof.
  simpl; unfold bind, ret; rewrite !SetLogLevel_meaning.
  destruct (meaning U a) as [la|]; simpl; rewrite SetLogLevel_meaning;
    destruct (meaning U b) as [lb|]; reflexivity.
Qed.

(* ------------------------------------------------------------------ *)
(** ** Output only grows *)

(** [extends base cur]: [cur] is [base] with something appended. *)
Definition extends {A} (base cur : list A) : Prop :=
  exists more, cur = (base ++ more)%list.

(** Both files of [p] hold what they held in [p0], and maybe more. *)
Definition grown (p0 p : zap.Process) : Prop :=
  extends (zap.stdout p0) (zap.stdout p) /\ extends (zap.stderr p0) (zap.stderr p).

Lemma extends_refl {A} (l : list A) : extends l l.
Proof. exists []; symmetry; apply app_nil_r. Qed.

Lemma extends_snoc {A} (base cur : list A) (x : A) :
  extends base cur -> extends base (cur ++ [x]).
Proof. intros [more ->]; exists (more ++ [x])%list; symmetry; apply app_assoc. Qed.

Lemma stable_gets {St A} (P : St -> Prop) (g : St -> A) : stable P (gets g).
Proof. intros s H; exact H. Qed.

Lemma stable_if {St A} (P : St -> Prop) (b : bool) (m1 m2 : M St A) :
  stable P m1 -> stable P m2 -> stable P (if b then m1 else m2).
Proof. destruct b; auto. Qed.

Lemma Write_grows (p0 : zap.Process) (ws : zap.WriteSyncer) (o : zap.Output) :
  stable (grown p0) (zap.WriteSyncer_Write ws o).
Proof.
  destruct ws as [[]]; intros p [H1 H2]; split; simpl;
    auto using extends_snoc.
Qed.

Lemma OnWrite_grows (p0 : zap.Process) (a : CheckWriteAction)
      (ce : zap.CheckedEntry) :
  stable (grown p0) (zap.OnWrite a ce).
Proof. destruct a; intros p H; exact H. Qed.

Lemma writeCores_grows (p0 : zap.Process) (cs : list zap.ioCore) (ent : Entry)
      (fields : list Field) :
  stable (grown p0) (zap.writeCores cs ent fields).
Proof.
  induction cs as [|c cs IH]; simpl; [apply stable_ret|].
  apply stable_bind; [apply Write_grows | intros _; exact IH].
Qed.

Create HintDb grow.
#[local] Hint Resolve stable_ret stable_gets stable_if Write_grows OnWrite_grows
  writeCores_grows : grow.

Ltac grow :=
  repeat first
    [ solve [auto with grow]
    | apply stable_bind; [|intro]
    | apply stable_if ].

Lemma logAt_grows (p0 : zap.Process) (lvl : Level) (lg : zap.Logger)
      (msg : string) (fields : list Field) (c : zap.Call) :
  stable (grown p0) (zap.logAt lvl lg msg fields c).
Proof.
  unfold zap.logAt; apply stable_bind.
  - unfold zap.Logger_check, zap.ioCore_Check, zap.AtomicLevel_Enabled,
      zap.AtomicLevel_Level; grow.
    destruct (nth_error (zap.stack c) (zap.callerSkip lg)) as [f|];
      [match goal with
       | |- stable _ (match ?x with Some _ => _ | None => _ end) => destruct x
       end|]; grow.
  - intros [e|]; [|apply stable_ret].
    unfold zap.CheckedEntry_Write; grow.
Qed.

Lemma lift_grows {A} (p0 : zap.Process) (m : M zap.Process A) :
  stable (grown p0) m ->
  stable (fun w => grown p0 (logger.process w)) (logger.lift m).
Proof.
  intros H w Hw; specialize (H (logger.process w) Hw); unfold logger.lift.
  destruct (m (logger.process w)); exact H.
Qed.

Lemma emitters_grow (p0 : zap.Process) (msg : string) (fields : list Field)
      (c : zap.Call) :
  let P := fun w => grown p0 (logger.process w) in
  stable P (logger.Debug msg fields c) /\
  stable P (logger.Info msg fields c) /\
  stable P (logger.Warn msg fields c) /\
  stable P (logger.Error msg fields c) /\
  stable P (logger.Fatal msg fields c).
Proof.
  cbv zeta.
  unfold logger.Debug, logger.Info, logger.Warn, logger.Error, logger.Fatal,
    zap.Logger_Debug, zap.Logger_Info, zap.Logger_Warn, zap.Logger_Error,
    zap.Logger_Fatal.
  split; [|split; [|split; [|split]]];
    (apply stable_bind; [apply stable_gets|]);
    intros l; apply lift_grows, logAt_grows.
Qed.

Lemma SetLogLevel_grows (U : Unicode) (p0 : zap.Process) (level : string) :
  stable (fun w => grown p0 (logger.process w)) (logger.SetLogLevel U level).
Proof.
  intros w Hw; rewrite SetLogLevel_meaning.
  destruct (meaning U level); exact Hw.
Qed.

Lemma call_grows (U : Unicode) (p0 : zap.Process) (o : logger.Op) :
  stable (fun w => grown p0 (logger.process w)) (logger.call U o).
Proof.
  destruct o; simpl; try apply (emitters_grow p0).
  - unfold logger.Init.
    destruct (negb (os.Getenv env "LOG_LEVEL" =s EmptyString)).
    + apply stable_bind; [apply SetLogLevel_grows|].
      intros [e|]; apply (emitters_grow p0).
    + apply (emitters_grow p0).
  - apply stable_bind; [apply SetLogLevel_grows | intros; apply stable_ret].
  - intros w Hw; unfold bind; rewrite GetLogLevel_reads; exact Hw.
Qed.

Lemma run_grows (U : Unicode) (p0 : zap.Process) (ops : list logger.Op) :
  stable (fun w => grown p0 (logger.process w)) (logger.run U ops).
Proof.
  induction ops as [|o ops IH]; simpl; [apply stable_ret|].
  apply stable_bind; [apply call_grows | intros _; exact IH].
Qed.

(** X9. Output is append-only: whatever the logger and whatever the
    calls, a program leaves on standard output and on standard error
    everything that was there, in place, followed by what it wrote; no
    call removes or rewrites a line. *)
Theorem run_output_append_only
        (U : Unicode) (ops : list logger.Op) (w : logger.World) :
  exists out err,
    zap.stdout (logger.process (final (logger.run U ops w)))
    = (zap.stdout (logger.process w) ++ out)%list /\
    zap.stderr (logger.process (final (logger.run U ops w)))
    = (zap.stderr (logger.process w) ++ err)%list.
Proof.
  destruct (run_grows U (logger.process w) ops w
                      (conj (extends_refl _) (extends_refl _)))
    as [[out Ho] [err He]].
  exists out, err; split; assumption.
Qed.

(* ------------------------------------------------------------------ *)
(** ** Lines and calls *)

(** Under the logger of [init], a call stops in a world with that logger
    and at most one more entry on standard output. *)
Definition oneMore (p p' : zap.Process) : Prop :=
  zap.stdout p' = zap.stdout p \/
  exists l, zap.stdout p' = (zap.stdout p ++ [zap.Line l])%list.

Lemma emit_oneMore (e : Emitter) (msg : string) (fields : list Field)
      (c : zap.Call) (p : zap.Process) :
  exists p', emit e msg fields c (started p) = Ret tt (started p') /\ oneMore p p'.
Proof.
  rewrite emit_gated.
  destruct (zap.level p <=? levelOf (severity e)); eexists;
    (split; [reflexivity|]); [right; eexists; reflexivity | left; reflexivity].
Qed.

Lemma call_oneMore (U : Unicode) (o : logger.Op) (p : zap.Process) :
  exists p', final (logger.call U o (started p)) = started p' /\ oneMore p p'.
Proof.
  destruct o as [env c|level| |msg fields c|msg fields c|msg fields c
                 |msg fields c|msg fields c]; simpl.
  - rewrite Init_started; cbv zeta.
    destruct (os.Getenv env "LOG_LEVEL" =s EmptyString);
      [|destruct (meaning U (os.Getenv env "LOG_LEVEL")) as [l|]];
      match goal with
      | |- context [emit ?e ?m ?f ?c' (started ?q)] =>
          destruct (emit_oneMore e m f c' q) as (p' & -> & Hp)
      end; exists p'; split; try reflexivity; exact Hp.
  - unfold bind; rewrite SetLogLevel_meaning.
    destruct (meaning U level) as [l|]; simpl.
    + exists (atLevel l p); split; [reflexivity | left; reflexivity].
    + exists p; split; [reflexivity | left; reflexivity].
  - exists p; split; [reflexivity | left; reflexivity].
  - destruct (emit_oneMore EmDebug msg fields c p) as (p' & H & Hp).
    simpl in H; rewrite H; exists p'; split; [reflexivity | exact Hp].
  - destruct (emit_oneMore EmInfo msg fields c p) as (p' & H & Hp).
    simpl in H; rewrite H; exists p'; split; [reflexivity | exact Hp].
  - destruct (emit_oneMore EmWarn msg fields c p) as (p' & H & Hp).
    simpl in H; rewrite H; exists p'; split; [reflexivity | exact Hp].
  - destruct (emit_oneMore EmError msg fields c p) as (p' & H & Hp).
    simpl in H; rewrite H; exists p'; split; [reflexivity | exact Hp].
  - rewrite Fatal_started.
    destruct (zap.level p <=? FatalLevel); eexists;
      (split; [reflexivity|]); [right; eexists; reflexivity | left; reflexivity].
Qed.

Lemma run_line_count (U : Unicode) (ops : list logger.Op) (p : zap.Process) :
  (List.length (zap.stdout (logger.process (final (logger.run U ops (started p)))))
   <= List.length (zap.stdout p) + List.length ops)%nat.
Proof.
  revert p; induction ops as [|o ops IH]; intros p; simpl; [lia|].
  rewrite final_bind.
  destruct (call_oneMore U o p) as (p' & Hf & Hp).
  assert (Hlen : (List.length (zap.stdout p') <= List.length (zap.stdout p) + 1)%nat).
  { destruct Hp as [-> | [l ->]]; [lia | rewrite length_app; simpl; lia]. }
  destruct (logger.call U o (started p)) as [[] w'|code w'|e w'];
    simpl in Hf; subst w'.
  - specialize (IH p'); lia.
  - simpl; lia.
  - simpl; lia.
Qed.

(** X10. At most one line per call: a program of [n] calls run after
    [init] leaves at most [n] lines on standard output; [Init] and each
    logging function write one line or none, [SetLogLevel] and
    [GetLogLevel] none. *)
Theorem at_most_one_line_per_call (U : Unicode) (ops : list logger.Op) :
  (List.length (zap.stdout (logger.process (final (logger.run U ops logger.init))))
   <= List.length ops)%nat.
Proof. exact (run_line_count U ops (logger.process logger.init)). Qed.

(** One call of a gated function. *)
Record EmitCall := {
  who : Emitter;
  what : string;
  fieldsOf : list Field;
  whence : zap.Call
}.

Definition toOp (e : EmitCall) : logger.Op :=
  match who e with
  | EmDebug => logger.CallDebug (what e) (fieldsOf e) (whence e)
  | EmInfo => logger.CallInfo (what e) (fieldsOf e) (whence e)
  | EmWarn => logger.CallWarn (what e) (fieldsOf e) (whence e)
  | EmError => logger.CallError (what e) (fieldsOf e) (whence e)
  end.

Definition lineOfCall (e : EmitCall) : zap.Output :=
  zap.Line (lineOf (levelOf (severity (who e))) (what e) (fieldsOf e) (whence e)).

Definition passes (threshold : Level) (e : EmitCall) : bool :=
  threshold <=? levelOf (severity (who e)).

Lemma call_toOp (U : Unicode) (e : EmitCall) :
  logger.call U (toOp e) = emit (who e) (what e) (fieldsOf e) (whence e).
Proof. destruct e as [[] m f c]; reflexivity. Qed.

Lemma run_emits (U : Unicode) (es : list EmitCall) (p : zap.Process) :
  exists p',
    logger.run U (map toOp es) (started p) = Ret tt (started p') /\
    zap.level p' = zap.level p /\
    zap.stdout p'
    = (zap.stdout p ++ map lineOfCall (filter (passes (zap.level p)) es))%list.
Proof.
  revert p; induction es as [|e es IH]; intros p; simpl.
  - exists p; repeat split; symmetry; apply app_nil_r.
  - unfold bind; rewrite call_toOp, emit_gated.
    unfold passes at 1.
    destruct (zap.level p <=? levelOf (severity (who e))).
    + destruct (IH (written (levelOf (severity (who e))) (what e) (fieldsOf e)
                            (whence e) p)) as (p' & Hr & Hl & Ho).
      exists p'; split; [exact Hr|]. split; [exact Hl|].
      rewrite Ho; simpl; rewrite <- app_assoc; reflexivity.
    + destruct (IH p) as (p' & Hr & Hl & Ho).
      exists p'; split; [exact Hr|]. split; [exact Hl|exact Ho].
Qed.

(** X11. The threshold is a filter on the sequence of calls: a program of
    [Debug], [Info], [Warn] and [Error] calls returns with the threshold
    unchanged and with standard output extended by the lines of exactly
    those calls whose severity is at or above the threshold, one line per
    call, in call order. *)
Theorem output_is_the_calls_that_pass
        (U : Unicode) (es : list EmitCall) (p : zap.Process) :
  exists p',
    logger.run U (map toOp es) (started p) = Ret tt (started p') /\
    zap.level p' = zap.level p /\
    zap.stdout p'
    = (zap.stdout p ++ map lineOfCall (filter (passes (zap.level p)) es))%list.
Proof. exact (run_emits U es p). Qed.

(** X12. The line of a call that passes, made from a call site [f]: the
    level name, the time of the call under ["timestamp"] in ISO-8601,
    the call site of the facade function (not the facade itself) under
    ["caller"], the message under ["msg"], then the fields in the order
    given, and a newline; standard error stays as it was. *)
Theorem emit_line_format
        (e : Emitter) (msg : string) (fields : list Field)
        (t : time_Time) (f : zap.Frame) (outer : list zap.Frame)
        (p : zap.Process) :
  zap.level p <= levelOf (severity e) ->
  emit e msg fields {| zap.now := t; zap.stack := f :: outer |} (started p)
  = Ret tt
      (started
         {| zap.level := zap.level p;
            zap.stdout :=
              (zap.stdout p ++
               [zap.Line
                  {| members :=
                       [("level", JString (nameOf (severity e)));
                        ("timestamp", JTime ISO8601TimeEncoder t);
                        ("caller", JString (zap.frame_path f));
                        ("msg", JString msg)] ++ addFields fields;
                     ending := String (ascii_of_nat 10) EmptyString |}])%list;
            zap.stderr := zap.stderr p |}).
Proof.
  intros Hle; rewrite emit_gated.
  apply Z.leb_le in Hle; rewrite Hle.
  unfold written, lineOf, entryOf, callerOf, EncodeEntry; simpl.
  rewrite app_nil_r.
  destruct e; reflexivity.
Qed.

Lemma emit_line_format_witness :
  zap.level (logger.process logger.init) <= levelOf (severity EmWarn) /\
  emit EmWarn "disk almost full" [zap.Int "free" 12] fromMain
       (started (logger.process logger.init))
  = Ret tt
      (started
         {| zap.level := InfoLevel;
            zap.stdout :=
              [zap.Line
                 {| members :=
                      [("level", JString "warn");
                       ("timestamp", JTime ISO8601TimeEncoder (zap.now fromMain));
                       ("caller", JString "app/main.go:10");
                       ("msg", JString "disk almost full");
                       ("free", JNumber 12)];
                    ending := String (ascii_of_nat 10) EmptyString |}];
            zap.stderr := [] |}).
Proof.
  split.
  - vm_compute; discriminate.
  - apply (emit_line_format EmWarn "disk almost full" [zap.Int "free" 12]
                            (zap.now fromMain)
                            {| zap.frame_path := "app/main.go:10";
                               zap.frame_func := "main.main" |}
                            [] (logger.process logger.init)).
    vm_compute; discriminate.
Defined.

Lemma SetLogLevel_ascii_accepts_witness :
  strings.isASCII "Verbose" = true /\
  ((exists w', logger.SetLogLevel noTables "Verbose" logger.init = Ret None w') <->
   (assoc (strings.lowerASCII "Verbose") aliases <> None \/ "Verbose" = EmptyString))
  /\ ((exists e, logger.SetLogLevel noTables "Verbose" logger.init
                 = Ret (Some e) logger.init) <->
      (assoc (strings.lowerASCII "Verbose") aliases = None /\
       "Verbose" <> EmptyString)).
Proof.
  split.
  - reflexivity.
  - apply (SetLogLevel_ascii_accepts noTables "Verbose" logger.init).
    reflexivity.
Defined.

Lemma SetLogLevel_case_insensitive_witness :
  (strings.isASCII "ErRoR" = true /\ strings.isASCII "error" = true /\
   strings.lowerASCII "ErRoR" = strings.lowerASCII "error") /\
  final (logger.SetLogLevel noTables "ErRoR" logger.init)
  = final (logger.SetLogLevel noTables "error" logger.init) /\
  (logger.SetLogLevel noTables "ErRoR" logger.init
   = Ret None (final (logger.SetLogLevel noTables "ErRoR" logger.init)) <->
   logger.SetLogLevel noTables "error" logger.init
   = Ret None (final (logger.SetLogLevel noTables "error" logger.init))).
Proof.
  split.
  - repeat split.
  - apply (SetLogLevel_case_insensitive noTables "ErRoR" "error" logger.init);
      reflexivity.
Defined.

Lemma filter_all {A} (f : A -> bool) (l : list A) :
  (forall x, In x l -> f x = true) -> filter f l = l.
Proof.
  induction l as [|x l IH]; intros H; simpl; [reflexivity|].
  rewrite (H x (or_introl eq_refl)), IH; [reflexivity|].
  intros y Hy; apply H; right; exact Hy.
Qed.

Lemma run_emits_silent (U : Unicode) (es : list EmitCall) (p : zap.Process) :
  ErrorLevel < zap.level p ->
  logger.run U (map toOp es) (started p) = Ret tt (started p).
Proof.
  intros Hl; induction es as [|e es IH]; simpl; [reflexivity|].
  unfold bind; rewrite call_toOp, emit_gated.
  replace (zap.level p <=? levelOf (severity (who e))) with false; [exact IH|].
  symmetry; apply Z.leb_gt.
  destruct (who e); unfold ErrorLevel in Hl; simpl;
    unfold DebugLevel, InfoLevel, WarnLevel, ErrorLevel; lia.
Qed.

(** X13. The two ends of the gate: with the threshold above [Error]
    (at [DPanic], [Panic] or [Fatal]) a program of [Debug], [Info],
    [Warn] and [Error] calls returns in the world it started in, having
    written nothing anywhere; with the threshold at [Debug] it writes the
    line of every call, in call order. *)
Theorem silent_above_Error_complete_at_Debug
        (U : Unicode) (es : list EmitCall) (p : zap.Process) (l : Level) :
  ErrorLevel < l ->
  logger.run U (map toOp es) (started (atLevel l p))
  = Ret tt (started (atLevel l p))
  /\ exists p',
      logger.run U (map toOp es) (started (atLevel DebugLevel p))
      = Ret tt (started p') /\
      zap.stdout p' = (zap.stdout p ++ map lineOfCall es)%list.
Proof.
  intros Hl; split.
  - apply run_emits_silent; exact Hl.
  - destruct (run_emits U es (atLevel DebugLevel p)) as (p' & Hr & _ & Ho).
    exists p'; split; [exact Hr|].
    rewrite Ho, filter_all; [reflexivity|].
    intros e _; unfold passes; destruct (who e); reflexivity.
Qed.

Lemma silent_above_Error_complete_at_Debug_witness :
  ErrorLevel < FatalLevel /\
  logger.run noTables
    (map toOp [{| who := EmError; what := "e"; fieldsOf := []; whence := fromMain |}])
    (started (atLevel FatalLevel (logger.process logger.init)))
  = Ret tt (started (atLevel FatalLevel (logger.process logger.init)))
  /\ exists p',
      logger.run noTables
        (map toOp [{| who := EmError; what := "e"; fieldsOf := [];
                      whence := fromMain |}])
        (started (atLevel DebugLevel (logger.process logger.init)))
      = Ret tt (started p') /\
      zap.stdout p'
      = (zap.stdout (logger.process logger.init)
         ++ map lineOfCall [{| who := EmError; what := "e"; fieldsOf := [];
                               whence := fromMain |}])%list.
Proof.
  split.
  - reflexivity.
  - apply (silent_above_Error_complete_at_Debug noTables
             [{| who := EmError; what := "e"; fieldsOf := []; whence := fromMain |}]
             (logger.process logger.init) FatalLevel).
    reflexivity.
Defined.

(* ------------------------------------------------------------------ *)
(** ** Standard error *)






